(** * Smooth Streaming initialization-segment synthesis

    A shallow embedding of [moov_processor.go] (package [smoothstreaming])
    together with the manifest fragment record of the protocol data model,
    and the properties of the natural-language specification stated over
    it.

    Conventions.
    - Go unsigned integers are [Z] values; every conversion and every
      arithmetic operation that can wrap is written with its modulus.
    - A [[]byte] is a [list byte].
    - A Go function returning [(mp4.Box, error)] returns a
      [Result error Box]: a value, an error value, or a run-time panic.
    - A four-character code is the [string] of its four characters. *)

From Stdlib Require Import List ZArith String Ascii Bool Lia Arith.
From Stdlib Require Import Strings.Byte.
Import ListNotations.

Set Warnings "-register-all".

Local Open Scope string_scope.
Local Open Scope Z_scope.
Local Open Scope list_scope.

(** ** Go values *)

Definition bytes := list byte.

Definition uint8_of_byte (b : byte) : Z := Z.of_N (Byte.to_N b).

Definition uint16 (n : Z) : Z := n mod 2 ^ 16.
Definition uint32 (n : Z) : Z := n mod 2 ^ 32.
Definition uint64 (n : Z) : Z := n mod 2 ^ 64.

(** Outcome of a Go call that returns a value and an [error]: [Panic]
    stands for a run-time panic (here always an index out of range). *)
Inductive Result (E A : Type) : Type :=
| Ok (a : A)
| Err (e : E)
| Panic.

Arguments Ok {E A} a.
Arguments Err {E A} e.
Arguments Panic {E A}.

Definition bind {E A B : Type} (r : Result E A) (k : A -> Result E B)
  : Result E B :=
  match r with
  | Ok a => k a
  | Err e => Err e
  | Panic => Panic
  end.

Notation "x <- r ;; k" := (bind r (fun x => k))
  (at level 61, r at next level, right associativity).

(** Indexing a byte slice, [s[i]]: a panic when [i] is out of range. *)
Definition index_byte {E : Type} (s : bytes) (i : nat) : Result E byte :=
  match nth_error s i with
  | Some b => Ok b
  | None => Panic
  end.

(** ** errors.go *)

Inductive sentinel : Type :=
| ErrUnknownCodec
| ErrInvalidParam.

Definition sentinel_message (s : sentinel) : string :=
  match s with
  | ErrUnknownCodec => "codec not supported"
  | ErrInvalidParam => "invalid parameter"
  end.

(** An [error] value: its message and, for [fmt.Errorf] with [%w], the
    sentinel it wraps. *)
Record error : Type := mkError {
  error_message : string;
  error_unwrap : option sentinel
}.

(** [fmt.Errorf(prefix + ": %w", s)] *)
Definition Errorf_wrap (prefix : string) (s : sentinel) : error :=
  mkError (prefix ++ ": " ++ sentinel_message s)%string (Some s).

(** [fmt.Errorf(text)] *)
Definition Errorf (text : string) : error := mkError text None.

(** The error kinds of the specification, read off the error values. *)
Definition UnsupportedCodec (e : error) : Prop :=
  error_unwrap e = Some ErrUnknownCodec.

Definition InvalidCodecPrivateData (e : error) : Prop :=
  error_unwrap e = Some ErrInvalidParam.

Definition MissingRequiredParameterSet (e : error) : Prop :=
  e = Errorf "cannot find hevc sps nalu".

(** ** The Go [bytes] package: [Index], [Count], [Split]

    Only the case of a non-empty separator is modelled; the processor
    always splits on the four-byte start code. *)
Module Bytes.

Fixpoint HasPrefix (s prefix : bytes) : bool :=
  match prefix, s with
  | [], _ => true
  | _ :: _, [] => false
  | p :: prefix', b :: s' =>
      if Byte.eqb b p then HasPrefix s' prefix' else false
  end.

(** [bytes.Index]: index of the first instance of [sep] in [s], [None]
    for Go's [-1]. *)
Fixpoint Index (s sep : bytes) : option nat :=
  if HasPrefix s sep then Some 0%nat
  else match s with
       | [] => None
       | _ :: s' => option_map S (Index s' sep)
       end.

(** The loop of [bytes.Count]; a round that finds an instance drops at
    least one byte, so [length s] rounds are never exhausted. *)
Fixpoint Count_loop (rounds : nat) (s sep : bytes) : nat :=
  match rounds with
  | O => 0%nat
  | S rounds' =>
      match Index s sep with
      | None => 0%nat
      | Some i => S (Count_loop rounds' (skipn (i + List.length sep) s) sep)
      end
  end.

Definition Count (s sep : bytes) : nat := Count_loop (List.length s) s sep.

(** The loop of [genSplit] with [sepSave = 0]: [n] is the number of
    separators still to be consumed. *)
Fixpoint genSplit_loop (n : nat) (s sep : bytes) : list bytes :=
  match n with
  | O => [s]
  | S n' =>
      match Index s sep with
      | None => [s]
      | Some m => firstn m s :: genSplit_loop n' (skipn (m + List.length sep) s) sep
      end
  end.

(** [bytes.Split(s, sep)] is [genSplit(s, sep, 0, -1)]: [n] becomes
    [Count(s, sep) + 1], capped at [len(s) + 1], then is decremented. *)
Definition Split (s sep : bytes) : list bytes :=
  let n := Nat.min (Count s sep + 1) (List.length s + 1) in
  genSplit_loop (n - 1) s sep.

End Bytes.

(** The Annex-B start code [00 00 00 01]. *)
Definition start_code : bytes := [x00; x00; x00; x01].

(** ** Four-character codes and constants of the container library *)

(** Modelled from the spec: the code and flag constants belong to the
    container library, which is not part of this package; they have the
    values the specification and the container format name. *)

Definition FourCC := string.
Definition BoxType := FourCC.

(** The zero value of a four-character code. *)
Definition ZeroFourCC : FourCC :=
  String zero (String zero (String zero (String zero EmptyString))).

Definition Avc1FourCC : FourCC := "avc1".
Definition Hvc1FourCC : FourCC := "hvc1".
Definition Hev1FourCC : FourCC := "hev1".
Definition CencFourCC : FourCC := "cenc".
Definition Iso6FourCC : FourCC := "iso6".
Definition IsomFourCC : FourCC := "isom".
Definition MsdhFourCC : FourCC := "msdh".
Definition VideFourCC : FourCC := "vide".
Definition SounFourCC : FourCC := "soun".
Definition MetaFourCC : FourCC := "meta".
Definition EncvBoxType : BoxType := "encv".

Definition FLAG_TKHD_TRACK_ENABLED : Z := 1.
Definition FLAG_TKHD_TRACK_IN_MOVIE : Z := 2.
Definition FLAG_TKHD_TRACK_IN_PREVIEW : Z := 4.
Definition FLAG_DREF_SAME_FILE : Z := 1.

(** ** Stream types (manifest data model) *)

Definition StreamType := string.
Definition VideoStream : StreamType := "video".
Definition AudioStream : StreamType := "audio".
Definition TextStream : StreamType := "text".

(** ** The AVC side of the codec library *)

(** Modelled from the spec: [avc.GetNaluType] and the constants
    [avc.NALU_SPS], [avc.NALU_PPS] belong to the codec library, which is
    not part of this package.  The type field is the low-order five bits
    of the first byte of the unit; a sequence parameter set has type 7, a
    picture parameter set type 8. *)
Definition avc_GetNaluType (b : byte) : Z := Z.land (uint8_of_byte b) 31.
Definition avc_NALU_SPS : Z := 7.
Definition avc_NALU_PPS : Z := 8.

Record AVCSequenceParameterSet : Type := mkAVCSPS { sps_NALUnit : bytes }.
Record AVCPictureParameterSet : Type := mkAVCPPS { pps_NALUnit : bytes }.

Record AVCDecoderConfigurationRecord : Type := mkAVCConfig {
  ConfigurationVersion : Z;
  AVCProfileIndication : byte;
  ProfileCompatibility : byte;
  AVCLevelIndication : byte;
  LengthSizeMinusOne : Z;
  SequenceParameterSets : list AVCSequenceParameterSet;
  PictureParameterSets : list AVCPictureParameterSet
}.

(** ** The processor *)

Record MoovProcessor : Type := mkMoovProcessor {
  TrackID : Z;
  Codec : FourCC;
  Width : Z;
  Height : Z;
  Duration : Z;
  Timescale : Z;
  Language : string;
  CodecPrivateData : bytes;
  Stream_Type : StreamType;
  StreamName : string;
  Protected : bool;
  KID : bytes;
  SystemID : bytes;
  ProtectionInitData : bytes
}.

Definition unity_matrix : list Z :=
  [65536; 0; 0; 0; 65536; 0; 0; 0; 1073741824].

(** The HEVC side of the codec library is kept abstract: the record type,
    the classification of a unit by its first byte, the three type
    constants, and the construction of the record from the parameter
    sets. *)
Class CodecLibrary : Type := {
  HEVCDecoderConfigurationRecord : Type;
  hevc_GetNaluType : byte -> Z;
  hevc_NALU_VPS : Z;
  hevc_NALU_SPS : Z;
  hevc_NALU_PPS : Z;
  CreateHEVCDecoderConfigurationRecord :
    list bytes -> list bytes -> list bytes -> bool -> bool -> bool ->
    Result error HEVCDecoderConfigurationRecord
}.

Section Boxes.

Context {codec : CodecLibrary}.

(** The box structs of the container library, with the fields the
    processor sets. *)
Inductive BoxBody : Type :=
| FileTypeBox (MajorBrand : FourCC) (MinorVersion : Z)
    (CompatibleBrands : list FourCC)
| MovieBox
| MovieHeaderBox (mvhd_Timescale mvhd_Duration Rate Volume : Z)
    (Matrix : list Z) (NextTrackID : Z)
| ProtectionSystemSpecificHeaderBox (pssh_SystemID pssh_Data : bytes)
| TrackExtendsBox (trex_TrackID DefaultSampleDescrptionIndex : Z)
| MovieExtendsBox
| TrackHeaderBox (tkhd_TrackID tkhd_Duration tkhd_Volume : Z)
    (tkhd_Matrix : list Z) (tkhd_Width tkhd_Height : Z)
| TrackBox
| MediaHeaderBox (mdhd_Timescale mdhd_Duration : Z) (mdhd_Language : string)
| HandlerBox (HandlerType : FourCC) (Name : string)
| MediaBox
| MediaInformationBox
| VideoMediaHeaderBox
| SoundMediaHeaderBox
| DataInformationBox
| DataReferenceBox
| DataEntryBox
| SampleTableBox
| SampleDescriptionBox
| TimeToSampleBox
| SampleToChunkBox
| ChunkOffsetBox
| SampleSizeBox
| VisualSampleEntryBox (DataReferenceIndex vse_Width vse_Height
    HorizResolution VertResolution FrameCount : Z)
    (CompressorName : string) (Depth : Z)
| AVCConfigurationBox (AVCConfig : AVCDecoderConfigurationRecord)
| HEVCConfigurationBox (HEVCConfig : HEVCDecoderConfigurationRecord)
| ProtectionSchemeInfoBox
| OriginalFormatBox (DataFormat : FourCC)
| SchemeTypeBox (SchemeType : FourCC) (SchemeVersion : Z)
| SchemeInformationBox
| TrackEncryptionBox (DefaultIsProtected DefaultPerSampleIVSize : Z)
    (DefaultKID : bytes).

(** A box: its header type, its full-header version and flags, the struct
    it is, and its ordered children. *)
Inductive Box : Type :=
| mkBox (Header_Type : BoxType) (Version Flags : Z) (body : BoxBody)
    (children : list Box).

Definition Header_Type (b : Box) : BoxType :=
  let 'mkBox t _ _ _ _ := b in t.
Definition Version (b : Box) : Z := let 'mkBox _ v _ _ _ := b in v.
Definition Flags (b : Box) : Z := let 'mkBox _ _ f _ _ := b in f.
Definition body (b : Box) : BoxBody := let 'mkBox _ _ _ x _ := b in x.
Definition children (b : Box) : list Box := let 'mkBox _ _ _ _ c := b in c.

(** A struct literal [&mp4.XBox{...}]: zero header, no children. *)
Definition new_box (x : BoxBody) : Box := mkBox ZeroFourCC 0 0 x [].

Definition Mp4BoxSetType (t : BoxType) (b : Box) : Box :=
  let 'mkBox _ v f x c := b in mkBox t v f x c.
Definition SetVersion (v : Z) (b : Box) : Box :=
  let 'mkBox t _ f x c := b in mkBox t v f x c.
Definition Mp4BoxSetFlags (f : Z) (b : Box) : Box :=
  let 'mkBox t v _ x c := b in mkBox t v f x c.

(** Modelled from the spec: [Mp4BoxReplaceChildren] and [Mp4BoxAppend] are
    methods of the container library; a box is a node owning an ordered
    list of child nodes, and the two methods set, respectively extend,
    that list. *)
Definition Mp4BoxReplaceChildren (b : Box) (cs : list Box)
  : Result error Box :=
  let 'mkBox t v f x _ := b in Ok (mkBox t v f x cs).
Definition Mp4BoxAppend (b : Box) (c : Box) : Result error Box :=
  let 'mkBox t v f x cs := b in Ok (mkBox t v f x (cs ++ [c])).

End Boxes.

(** [Mp4BoxUpdate] of the container library is kept abstract. *)
Class ContainerLibrary {codec : CodecLibrary} : Type := {
  Mp4BoxUpdate : Box -> Box
}.

Definition R := Result error.

Section Processor.

Context {codec : CodecLibrary} {container : ContainerLibrary}.

Definition CreateFtypMp4Box (p : MoovProcessor) : R Box :=
  let ftyp :=
    new_box (FileTypeBox Iso6FourCC 1 [IsomFourCC; Iso6FourCC; MsdhFourCC]) in
  Ok (Mp4BoxUpdate ftyp).

Definition CreateMvhdMp4Box (p : MoovProcessor) : R Box :=
  Ok (SetVersion 1
        (new_box (MovieHeaderBox
                    (uint32 (Timescale p))
                    (uint64 (Duration p * Timescale p))
                    65536 256 unity_matrix
                    (uint32 (TrackID p + 1))))).

Definition CreatePsshMp4Box (p : MoovProcessor) : R Box :=
  Ok (new_box (ProtectionSystemSpecificHeaderBox
                 (SystemID p) (ProtectionInitData p))).

Definition CreateMvexMp4Box (p : MoovProcessor) : R Box :=
  let trex := new_box (TrackExtendsBox (TrackID p) 1) in
  Mp4BoxReplaceChildren (new_box MovieExtendsBox) [trex].

(** The loop of [CreateAvcCMp4Box] over [nalus[1:]]. *)
Fixpoint avc_collect (nalus : list bytes)
    (sps : list AVCSequenceParameterSet) (pps : list AVCPictureParameterSet)
  : R (list AVCSequenceParameterSet * list AVCPictureParameterSet) :=
  match nalus with
  | [] => Ok (sps, pps)
  | nalu :: rest =>
      b <- index_byte nalu 0 ;;
      let naluType := avc_GetNaluType b in
      if naluType =? avc_NALU_SPS then
        avc_collect rest (sps ++ [mkAVCSPS nalu]) pps
      else if naluType =? avc_NALU_PPS then
        avc_collect rest sps (pps ++ [mkAVCPPS nalu])
      else avc_collect rest sps pps
  end.

Definition CreateAvcCMp4Box (p : MoovProcessor) : R Box :=
  let nalus := Bytes.Split (CodecPrivateData p) start_code in
  if (List.length nalus <? 1)%nat then
    Err (Errorf_wrap "invalid CodecPrivateData for avcC" ErrInvalidParam)
  else
    sp <- avc_collect (tl nalus) [] [] ;;
    let '(sps, pps) := sp in
    prof <- match sps with
            | [] => Ok (x00, x00, x00)
            | sps0 :: _ =>
                avcProfile <- index_byte (sps_NALUnit sps0) 1 ;;
                avcProfileCompatibility <- index_byte (sps_NALUnit sps0) 2 ;;
                avcLevel <- index_byte (sps_NALUnit sps0) 3 ;;
                Ok (avcProfile, avcProfileCompatibility, avcLevel)
            end ;;
    let '(avcProfile, avcProfileCompatibility, avcLevel) := prof in
    Ok (new_box (AVCConfigurationBox
                   (mkAVCConfig 1 avcProfile avcProfileCompatibility avcLevel
                      3 sps pps))).

(** The loop of [CreateHvcCMp4Box] over [nalus[1:]]. *)
Fixpoint hevc_collect (nalus : list bytes) (vps sps pps : list bytes)
  : R (list bytes * list bytes * list bytes) :=
  match nalus with
  | [] => Ok (vps, sps, pps)
  | nalu :: rest =>
      b <- index_byte nalu 0 ;;
      let naluType := hevc_GetNaluType b in
      if naluType =? hevc_NALU_VPS then
        hevc_collect rest (vps ++ [nalu]) sps pps
      else if naluType =? hevc_NALU_SPS then
        hevc_collect rest vps (sps ++ [nalu]) pps
      else if naluType =? hevc_NALU_PPS then
        hevc_collect rest vps sps (pps ++ [nalu])
      else hevc_collect rest vps sps pps
  end.

Definition CreateHvcCMp4Box (p : MoovProcessor) : R Box :=
  let nalus := Bytes.Split (CodecPrivateData p) start_code in
  if (List.length nalus <? 1)%nat then
    Err (Errorf_wrap "invalid CodecPrivateData for hvcC" ErrInvalidParam)
  else
    sets <- hevc_collect (tl nalus) [] [] [] ;;
    let '(vpsNalus, spsNalus, ppsNalus) := sets in
    if (List.length spsNalus =? 0)%nat then
      Err (Errorf "cannot find hevc sps nalu")
    else
      conf <- CreateHEVCDecoderConfigurationRecord
                vpsNalus spsNalus ppsNalus true true true ;;
      Ok (new_box (HEVCConfigurationBox conf)).

Definition CreateSchiMp4Box (p : MoovProcessor) : R Box :=
  let tenc := new_box (TrackEncryptionBox 1 8 (KID p)) in
  Mp4BoxReplaceChildren (new_box SchemeInformationBox) [tenc].

Definition CreateSinfMp4Box (p : MoovProcessor) : R Box :=
  let sinf := new_box ProtectionSchemeInfoBox in
  let frmt := new_box (OriginalFormatBox (Codec p)) in
  let schm := new_box (SchemeTypeBox CencFourCC 65536) in
  schi <- CreateSchiMp4Box p ;;
  Mp4BoxReplaceChildren sinf [frmt; schm; schi].

(** The visual sample entry literal shared by the two codec paths. *)
Definition visual_sample_entry (p : MoovProcessor) (t : BoxType)
    (compressor : string) : Box :=
  Mp4BoxSetType t
    (new_box (VisualSampleEntryBox 1
                (uint16 (Width p)) (uint16 (Height p))
                72 72 1 compressor 24)).

Definition CreateHvc1Mp4Box (p : MoovProcessor) : R Box :=
  let hvc1 := visual_sample_entry p (Codec p) "HEVC Coding" in
  hvcC <- CreateHvcCMp4Box p ;;
  if Protected p then
    let hvc1 := Mp4BoxSetType EncvBoxType hvc1 in
    sinf <- CreateSinfMp4Box p ;;
    Mp4BoxReplaceChildren hvc1 ([hvcC] ++ [sinf])
  else
    Mp4BoxReplaceChildren hvc1 [hvcC].

Definition CreateAvc1Mp4Box (p : MoovProcessor) : R Box :=
  let avc1 := visual_sample_entry p Avc1FourCC "AVC Coding" in
  avcC <- CreateAvcCMp4Box p ;;
  if Protected p then
    let avc1 := Mp4BoxSetType EncvBoxType avc1 in
    sinf <- CreateSinfMp4Box p ;;
    Mp4BoxReplaceChildren avc1 ([avcC] ++ [sinf])
  else
    Mp4BoxReplaceChildren avc1 [avcC].

Definition CreateSampleEntryMp4Box (p : MoovProcessor) : R Box :=
  if String.eqb (Codec p) Avc1FourCC then CreateAvc1Mp4Box p
  else if String.eqb (Codec p) Hvc1FourCC || String.eqb (Codec p) Hev1FourCC
  then CreateHvc1Mp4Box p
  else Err (Errorf_wrap ("codec " ++ Codec p ++ " not supported")%string
              ErrUnknownCodec).

Definition CreateStsdMp4Box (p : MoovProcessor) : R Box :=
  sampleEntry <- CreateSampleEntryMp4Box p ;;
  Mp4BoxReplaceChildren (new_box SampleDescriptionBox) [sampleEntry].

Definition CreateStblMp4Box (p : MoovProcessor) : R Box :=
  stsd <- CreateStsdMp4Box p ;;
  Mp4BoxReplaceChildren (new_box SampleTableBox)
    [stsd; new_box TimeToSampleBox; new_box SampleToChunkBox;
     new_box ChunkOffsetBox; new_box SampleSizeBox].

Definition CreateDrefMp4Box (p : MoovProcessor) : R Box :=
  let url := Mp4BoxSetFlags FLAG_DREF_SAME_FILE (new_box DataEntryBox) in
  Mp4BoxAppend (new_box DataReferenceBox) url.

Definition CreateDinfMp4Box (p : MoovProcessor) : R Box :=
  dref <- CreateDrefMp4Box p ;;
  Mp4BoxReplaceChildren (new_box DataInformationBox) [dref].

(** The result is an interface value: [None] is the nil interface left
    by a stream type that matches no case. *)
Definition CreateMhdMp4Box (p : MoovProcessor) : R (option Box) :=
  if String.eqb (Stream_Type p) VideoStream then
    Ok (Some (new_box VideoMediaHeaderBox))
  else if String.eqb (Stream_Type p) AudioStream then
    Ok (Some (new_box SoundMediaHeaderBox))
  else Ok None.

Definition CreateMinfMp4Box (p : MoovProcessor) : R Box :=
  mhd <- CreateMhdMp4Box p ;;
  dinf <- CreateDinfMp4Box p ;;
  stbl <- CreateStblMp4Box p ;;
  let childred := [dinf; stbl] in
  let childred :=
    match mhd with
    | Some mhd => [mhd] ++ childred
    | None => childred
    end in
  Mp4BoxReplaceChildren (new_box MediaInformationBox) childred.

(** The media header literal of [CreateMdiaMp4Box]. *)
Definition mdia_mdhd (p : MoovProcessor) : Box :=
  SetVersion 1
    (new_box (MediaHeaderBox (uint32 (Timescale p))
                (uint64 (Duration p * Timescale p)) (Language p))).

(** The handler literal of [CreateMdiaMp4Box], after the switch. *)
Definition mdia_hdlr (p : MoovProcessor) : Box :=
  let HandlerType :=
    if String.eqb (Stream_Type p) VideoStream then VideFourCC
    else if String.eqb (Stream_Type p) AudioStream then SounFourCC
    else MetaFourCC in
  new_box (HandlerBox HandlerType (StreamName p)).

Definition CreateMdiaMp4Box (p : MoovProcessor) : R Box :=
  let mdhd := mdia_mdhd p in
  let hdlr := mdia_hdlr p in
  minf <- CreateMinfMp4Box p ;;
  Mp4BoxReplaceChildren (new_box MediaBox) [mdhd; hdlr; minf].

Definition CreateTrakMp4Box (p : MoovProcessor) : R Box :=
  let tkhd :=
    new_box (TrackHeaderBox (TrackID p) (uint64 (Duration p * Timescale p))
               256 unity_matrix (Width p) (Height p)) in
  let tkhd := SetVersion 1 tkhd in
  let tkhd :=
    Mp4BoxSetFlags
      (Z.lor (Z.lor FLAG_TKHD_TRACK_ENABLED FLAG_TKHD_TRACK_IN_MOVIE)
         FLAG_TKHD_TRACK_IN_PREVIEW) tkhd in
  mdia <- CreateMdiaMp4Box p ;;
  Mp4BoxReplaceChildren (new_box TrackBox) [tkhd; mdia].

Definition CreateMoovMp4Box (p : MoovProcessor) : R Box :=
  mvhd <- CreateMvhdMp4Box p ;;
  trak <- CreateTrakMp4Box p ;;
  mvex <- CreateMvexMp4Box p ;;
  let children := [mvhd; trak; mvex] in
  children <- (if Protected p then
                 pssh <- CreatePsshMp4Box p ;;
                 Ok (children ++ [pssh])
               else Ok children) ;;
  moov <- Mp4BoxReplaceChildren (new_box MovieBox) children ;;
  Ok (Mp4BoxUpdate moov).

Definition CreateInitMp4Box (p : MoovProcessor) : R (Box * Box) :=
  ftyp <- CreateFtypMp4Box p ;;
  moov <- CreateMoovMp4Box p ;;
  Ok (ftyp, moov).

End Processor.

(** ** Manifest fragments and timeline resolution *)

Module Manifest.

Record TrackFragment : Type := mkTrackFragment {
  Index : Z;
  ManifestOutputSample : bytes
}.

(** The [StreamFragment] struct: every attribute but the inline track
    payload is optional. *)
Record StreamFragment : Type := mkStreamFragment {
  Number : option Z;
  Duration : option Z;
  Time : option Z;
  Repeat : option Z;
  TrackFragments : list TrackFragment
}.

Record ResolvedFragment : Type := mkResolvedFragment {
  startTimeTicks : Z;
  durationTicks : Z;
  sequenceIndex : nat
}.

Inductive TimelineError : Type :=
| MalformedTimeline
| NonContiguousTimeline.

(** The repeat count of a group, 1 when the attribute is absent. *)
Definition repeatCount (g : StreamFragment) : nat :=
  match Repeat g with
  | Some r => Z.to_nat r
  | None => 1%nat
  end.

(** Modelled from the spec: the package declares the fragment record but
    has no function that resolves a timeline.  Step 3 of the resolution
    algorithm: [repeatCount] entries of the same duration, the k-th
    starting at [resolvedStartTicks + k * duration]. *)
Definition expand (resolvedStartTicks duration : Z) (count : nat)
  : list (Z * Z) :=
  map (fun k => (resolvedStartTicks + Z.of_nat k * duration, duration))
      (seq 0 count).

(** Modelled from the spec: the resolution algorithm is missing from the
    package.  Steps 1, 2 and 4, in manifest order, carrying the running
    edge [prevEndTicks]; one block of entries per group.  A group whose
    explicit time lies before the running edge is refused unless
    [tolerant] is set. *)
Fixpoint resolve_blocks (tolerant : bool) (presentationDurationTicks : Z)
    (prevEndTicks : Z) (groups : list StreamFragment)
  : TimelineError + list (list (Z * Z)) :=
  match groups with
  | [] => inr []
  | g :: rest =>
      let resolvedStartTicks :=
        match Time g with
        | Some t => t
        | None => prevEndTicks
        end in
      if negb tolerant && (resolvedStartTicks <? prevEndTicks) then
        inl NonContiguousTimeline
      else
        let inferred :=
          match Duration g with
          | Some d => Some d
          | None =>
              match rest with
              | [] => Some (presentationDurationTicks - resolvedStartTicks)
              | next :: _ =>
                  match Time next with
                  | Some t => Some (t - resolvedStartTicks)
                  | None => None
                  end
              end
          end in
        match inferred with
        | None => inl MalformedTimeline
        | Some duration =>
            let block := expand resolvedStartTicks duration (repeatCount g) in
            let edge :=
              match last (map Some block) None with
              | Some (s, d) => s + d
              | None => prevEndTicks
              end in
            match resolve_blocks tolerant presentationDurationTicks edge rest
            with
            | inl e => inl e
            | inr blocks => inr (block :: blocks)
            end
        end
  end.

(** Step 5: the sequence index is the position in the expanded output. *)
Definition number (entries : list (Z * Z)) : list ResolvedFragment :=
  map (fun '(i, (s, d)) => mkResolvedFragment s d i)
      (combine (seq 0 (List.length entries)) entries).

(** Modelled from the spec: timeline resolution of one stream, missing
    from the package; the running edge starts at 0. *)
Definition resolve (tolerant : bool) (presentationDurationTicks : Z)
    (groups : list StreamFragment)
  : TimelineError + list ResolvedFragment :=
  match resolve_blocks tolerant presentationDurationTicks 0 groups with
  | inl e => inl e
  | inr blocks => inr (number (List.concat blocks))
  end.

End Manifest.

(** ** A codec library instance

    An instance used to run the processor on concrete inputs: units are
    classified by the six-bit type field of the two-byte HEVC unit header
    (types 32, 33, 34), and the record keeps the parameter sets and the
    three flags it was built from. *)

Record SampleHEVCRecord : Type := mkSampleHEVCRecord {
  sample_vps : list bytes;
  sample_sps : list bytes;
  sample_pps : list bytes;
  sample_flags : bool * bool * bool
}.

Definition sample_codec : CodecLibrary := {|
  HEVCDecoderConfigurationRecord := SampleHEVCRecord;
  hevc_GetNaluType := fun b => Z.land (Z.shiftr (uint8_of_byte b) 1) 63;
  hevc_NALU_VPS := 32;
  hevc_NALU_SPS := 33;
  hevc_NALU_PPS := 34;
  CreateHEVCDecoderConfigurationRecord :=
    fun vps sps pps a b c => Ok (mkSampleHEVCRecord vps sps pps (a, b, c))
|}.

Definition sample_container : @ContainerLibrary sample_codec := {|
  Mp4BoxUpdate := fun b => b
|}.

(** ** Vocabulary of the statements *)

(** The marker-delimited segments after the first: the candidate units. *)
Definition nal_units (cpd : bytes) : list bytes :=
  tl (Bytes.Split cpd start_code).

(** The start code is immediately followed by another start code, or it
    terminates the input. *)
Definition start_code_then_nothing (cpd : bytes) : Prop :=
  (exists pre post, cpd = pre ++ start_code ++ start_code ++ post) \/
  (exists pre, cpd = pre ++ start_code).

(** First byte of a non-empty unit. *)
Definition first_byte (nalu : bytes) : byte := hd x00 nalu.

Definition avc_is_sps (nalu : bytes) : bool :=
  avc_GetNaluType (first_byte nalu) =? avc_NALU_SPS.

Definition avc_is_pps (nalu : bytes) : bool :=
  negb (avc_is_sps nalu) &&
  (avc_GetNaluType (first_byte nalu) =? avc_NALU_PPS).

(** Byte [i] of a unit, [x00] beyond its end. *)
Definition byte_at (nalu : bytes) (i : nat) : byte := nth i nalu x00.

(** The record the specification describes for a list of units. *)
Definition avc_record_of (units : list bytes)
  : AVCDecoderConfigurationRecord :=
  let sps := filter avc_is_sps units in
  let pps := filter avc_is_pps units in
  let first_sps := hd [] sps in
  mkAVCConfig 1 (byte_at first_sps 1) (byte_at first_sps 2)
    (byte_at first_sps 3) 3 (map mkAVCSPS sps) (map mkAVCPPS pps).

(** Units the AVC path can read: none is empty, and the first sequence
    parameter set, if any, has the three bytes after its header. *)
Definition avc_readable (units : list bytes) : Prop :=
  Forall (fun nalu => nalu <> []) units /\
  match filter avc_is_sps units with
  | [] => True
  | sps0 :: _ => (4 <= List.length sps0)%nat
  end.

Section BoxVocabulary.

Context {codec : CodecLibrary}.

Definition hevc_is_vps (nalu : bytes) : bool :=
  hevc_GetNaluType (first_byte nalu) =? hevc_NALU_VPS.

Definition hevc_is_sps (nalu : bytes) : bool :=
  negb (hevc_is_vps nalu) &&
  (hevc_GetNaluType (first_byte nalu) =? hevc_NALU_SPS).

Definition hevc_is_pps (nalu : bytes) : bool :=
  negb (hevc_is_vps nalu) && negb (hevc_is_sps nalu) &&
  (hevc_GetNaluType (first_byte nalu) =? hevc_NALU_PPS).

Definition is_vmhd (b : Box) : bool :=
  match body b with VideoMediaHeaderBox => true | _ => false end.
Definition is_smhd (b : Box) : bool :=
  match body b with SoundMediaHeaderBox => true | _ => false end.

(** The timescale and the duration a header box carries. *)
Definition written_timescale (b : Box) : option Z :=
  match body b with
  | MovieHeaderBox t _ _ _ _ _ => Some t
  | MediaHeaderBox t _ _ => Some t
  | _ => None
  end.

Definition written_duration (b : Box) : option Z :=
  match body b with
  | MovieHeaderBox _ d _ _ _ _ => Some d
  | MediaHeaderBox _ d _ => Some d
  | _ => None
  end.

Definition is_avcC (b : Box) : bool :=
  match body b with AVCConfigurationBox _ => true | _ => false end.
Definition is_hvcC (b : Box) : bool :=
  match body b with HEVCConfigurationBox _ => true | _ => false end.

(** The data-information box: one data reference to the same file. *)
Definition dinf_tree : Box :=
  mkBox ZeroFourCC 0 0 DataInformationBox
    [mkBox ZeroFourCC 0 0 DataReferenceBox
       [mkBox ZeroFourCC 0 FLAG_DREF_SAME_FILE DataEntryBox []]].

(** The media-header variant of a stream type, if it has one. *)
Definition mhd_of (stream : StreamType) : list Box :=
  if String.eqb stream VideoStream then [new_box VideoMediaHeaderBox]
  else if String.eqb stream AudioStream then [new_box SoundMediaHeaderBox]
  else [].

(** The protection-scheme subtree for a codec and a key identifier. *)
Definition sinf_tree (format : FourCC) (kid : bytes) : Box :=
  mkBox ZeroFourCC 0 0 ProtectionSchemeInfoBox
    [new_box (OriginalFormatBox format);
     new_box (SchemeTypeBox CencFourCC 65536);
     mkBox ZeroFourCC 0 0 SchemeInformationBox
       [new_box (TrackEncryptionBox 1 8 kid)]].

End BoxVocabulary.

(** A processor for a video track of 1920 by 1080, used to run the
    functions on concrete codec data. *)
Definition sample_processor (codec : FourCC) (cpd : bytes)
    (protected : bool) (stream : StreamType) : MoovProcessor :=
  mkMoovProcessor 1 codec 1920 1080 60 10000000 "und" cpd stream "track"
    protected (repeat x00 16) (repeat x00 16) [].

(** A sequence parameter set and a picture parameter set of an AVC
    track, each after a start code. *)
Definition avc_private_data : bytes :=
  start_code ++ [x67; x42; x00; x1f; xe9] ++ start_code ++ [x68; xce; x3c; x80].

(** A sequence parameter set of an HEVC track after a start code. *)
Definition hevc_private_data : bytes := start_code ++ [x42; x01; x01].

(** Tracks used to run the processor. *)
Definition hev1_track : MoovProcessor :=
  sample_processor Hev1FourCC hevc_private_data false VideoStream.

Definition protected_avc_track : MoovProcessor :=
  sample_processor Avc1FourCC avc_private_data true VideoStream.

Definition text_track : MoovProcessor :=
  sample_processor Avc1FourCC avc_private_data false TextStream.

Definition ac3_track : MoovProcessor :=
  sample_processor "AC-3" [] false AudioStream.

Definition doubled_start_code_track : MoovProcessor :=
  sample_processor Avc1FourCC (start_code ++ start_code ++ [x67]) false
    VideoStream.

(** A track whose timescale does not fit 32 bits. *)
Definition wide_timescale_track : MoovProcessor :=
  mkMoovProcessor 1 Avc1FourCC 1920 1080 60 (2 ^ 32 + 1000) "und"
    avc_private_data VideoStream "track" false [] [] [].

(** [s] occurs inside [t]. *)
Definition mentions (t s : string) : Prop :=
  exists pre post, t = (pre ++ s ++ post)%string.

(** ** Vocabulary of the structural statements *)

Section TreeVocabulary.

Context {codec : CodecLibrary}.

(** The box reached from [b] by following child positions. *)
Fixpoint descend (path : list nat) (b : Box) : option Box :=
  match path with
  | [] => Some b
  | i :: rest =>
      match nth_error (children b) i with
      | Some c => descend rest c
      | None => None
      end
  end.

(** The duration a movie, track or media header carries. *)
Definition header_duration (b : Box) : option Z :=
  match body b with
  | MovieHeaderBox _ d _ _ _ _ => Some d
  | TrackHeaderBox _ d _ _ _ _ => Some d
  | MediaHeaderBox _ d _ => Some d
  | _ => None
  end.

(** The track a track header or a track-extends box refers to. *)
Definition track_id_of (b : Box) : option Z :=
  match body b with
  | TrackHeaderBox i _ _ _ _ _ => Some i
  | TrackExtendsBox i _ => Some i
  | _ => None
  end.

Definition next_track_id (b : Box) : option Z :=
  match body b with
  | MovieHeaderBox _ _ _ _ _ n => Some n
  | _ => None
  end.

(** Width and height of a track header or of a visual sample entry. *)
Definition visual_size (b : Box) : option (Z * Z) :=
  match body b with
  | TrackHeaderBox _ _ _ _ w h => Some (w, h)
  | VisualSampleEntryBox _ w h _ _ _ _ _ => Some (w, h)
  | _ => None
  end.

Definition handler_type (b : Box) : option FourCC :=
  match body b with
  | HandlerBox t _ => Some t
  | _ => None
  end.

Definition compressor_name (b : Box) : option string :=
  match body b with
  | VisualSampleEntryBox _ _ _ _ _ _ n _ => Some n
  | _ => None
  end.

(** The parameter sets an AVC configuration box holds, as byte strings. *)
Definition avcC_parameter_sets (b : Box) : list bytes :=
  match body b with
  | AVCConfigurationBox conf =>
      map sps_NALUnit (SequenceParameterSets conf) ++
      map pps_NALUnit (PictureParameterSets conf)
  | _ => []
  end.

(** The track box around a sample entry. *)
Definition stbl_tree (entry : Box) : Box :=
  mkBox ZeroFourCC 0 0 SampleTableBox
    [mkBox ZeroFourCC 0 0 SampleDescriptionBox [entry];
     new_box TimeToSampleBox; new_box SampleToChunkBox;
     new_box ChunkOffsetBox; new_box SampleSizeBox].

Definition minf_tree (p : MoovProcessor) (entry : Box) : Box :=
  mkBox ZeroFourCC 0 0 MediaInformationBox
    (mhd_of (Stream_Type p) ++ [dinf_tree; stbl_tree entry]).

Definition mdia_tree (p : MoovProcessor) (entry : Box) : Box :=
  mkBox ZeroFourCC 0 0 MediaBox
    [mdia_mdhd p; mdia_hdlr p; minf_tree p entry].

Definition tkhd_box (p : MoovProcessor) : Box :=
  mkBox ZeroFourCC 1 7
    (TrackHeaderBox (TrackID p) (uint64 (Duration p * Timescale p)) 256
       unity_matrix (Width p) (Height p)) [].

Definition trak_tree (p : MoovProcessor) (entry : Box) : Box :=
  mkBox ZeroFourCC 0 0 TrackBox [tkhd_box p; mdia_tree p entry].

Definition mvhd_box (p : MoovProcessor) : Box :=
  mkBox ZeroFourCC 1 0
    (MovieHeaderBox (uint32 (Timescale p)) (uint64 (Duration p * Timescale p))
       65536 256 unity_matrix (uint32 (TrackID p + 1))) [].

Definition mvex_tree (p : MoovProcessor) : Box :=
  mkBox ZeroFourCC 0 0 MovieExtendsBox [new_box (TrackExtendsBox (TrackID p) 1)].

Definition pssh_box (p : MoovProcessor) : Box :=
  new_box (ProtectionSystemSpecificHeaderBox (SystemID p)
             (ProtectionInitData p)).

(** The movie box before the container library updates it. *)
Definition moov_tree (p : MoovProcessor) (entry : Box) : Box :=
  mkBox ZeroFourCC 0 0 MovieBox
    ([mvhd_box p; trak_tree p entry; mvex_tree p] ++
     if Protected p then [pssh_box p] else []).

(** Where the sample entry sits below the track box: the media box, the
    media-information box, the sample table after the media header (if
    any) and the data information, the sample description. *)
Definition sample_entry_path (p : MoovProcessor) : list nat :=
  [1; 2; S (List.length (mhd_of (Stream_Type p))); 0; 0]%nat.

End TreeVocabulary.

(** ** Fragment request URLs

    [ChunkURL] substitutes the bit rate and the start time into the URL
    pattern of a stream.  The Go strings it searches and rebuilds are
    modelled as their byte sequences. *)

(** The [strings] and [strconv] functions [ChunkURL] calls. *)
Module Strings.

Fixpoint eqb (a b : bytes) : bool :=
  match a, b with
  | [], [] => true
  | x :: a', y :: b' => Byte.eqb x y && eqb a' b'
  | _, _ => false
  end.

(** The loop of [strings.Replace] for a non-empty [old]: [n] instances
    are still to be replaced, and [n] never exceeds their number, so the
    search always finds one. *)
Fixpoint Replace_loop (n : nat) (s old new : bytes) : bytes :=
  match n with
  | O => s
  | S n' =>
      match Bytes.Index s old with
      | Some j =>
          firstn j s ++ new ++
          Replace_loop n' (skipn (j + List.length old) s) old new
      | None => s
      end
  end.

(** [strings.ReplaceAll(s, old, new)] is [Replace(s, old, new, -1)]. *)
Definition ReplaceAll (s old new : bytes) : bytes :=
  if eqb old new then s
  else
    let m := Bytes.Count s old in
    if (m =? 0)%nat then s else Replace_loop m s old new.

(** The ASCII digit of a value below ten. *)
Definition digit (d : Z) : byte :=
  match Byte.of_N (Z.to_N (48 + d)) with
  | Some b => b
  | None => x30
  end.

(** Decimal digits, least significant first into [acc]; a 64-bit value
    has at most twenty. *)
Fixpoint formatBits (rounds : nat) (u : Z) (acc : bytes) : bytes :=
  match rounds with
  | O => acc
  | S rounds' =>
      if u <? 10 then digit u :: acc
      else formatBits rounds' (u / 10) (digit (u mod 10) :: acc)
  end.

(** [strconv.FormatUint(u, 10)]. *)
Definition FormatUint10 (u : Z) : bytes := formatBits 20 u [].

End Strings.

(** [path.Dir] and [path.Join] are kept abstract. *)
Class PathLibrary : Type := {
  path_Dir : bytes -> bytes;
  path_Join : list bytes -> bytes
}.

Module Request.

(** The fields of [url.URL]. *)
Record URL : Type := mkURL {
  Scheme : bytes;
  Opaque : bytes;
  User : option (bytes * option bytes);
  Host : bytes;
  Path : bytes;
  RawPath : bytes;
  ForceQuery : bool;
  RawQuery : bytes;
  Fragment : bytes;
  RawFragment : bytes
}.

Record Attribute : Type := mkAttribute {
  Name : string;
  Value : string
}.

Record Track : Type := mkTrack {
  Index : Z;
  Bitrate : Z;
  MaxWidth : option Z;
  MaxHeight : option Z;
  SamplingRate : option Z;
  Channels : option Z;
  AudioTag : option Z;
  BitsPerSample : option Z;
  PacketSize : option Z;
  FourCC : option string;
  CodecPrivateData : bytes;
  NALUnitLengthField : option Z;
  CustomAttributes : option (list (option Attribute))
}.

Record StreamIndex : Type := mkStreamIndex {
  Type_ : StreamType;
  Subtype : option string;
  TimeScale : option Z;
  StreamIndex_Name : option string;
  NumberOfFragments : option Z;
  NumberOfTracks : option Z;
  Url : option bytes;
  StreamIndex_MaxWidth : option Z;
  StreamIndex_MaxHeight : option Z;
  DisplayWidth : option Z;
  DisplayHeight : option Z;
  ParentStreamIndex : option string;
  ManifestOutput : bool;
  Tracks : list (option Track);
  Fragments : list (option Manifest.StreamFragment)
}.

Definition bitrate_token : bytes := list_byte_of_string "{bitrate}".
Definition Bitrate_token : bytes := list_byte_of_string "{Bitrate}".
Definition start_time_token : bytes := list_byte_of_string "{start time}".
Definition start_time_underscore_token : bytes :=
  list_byte_of_string "{start_time}".

(** The four replacements of [ChunkURL], in its order. *)
Definition substitute (c : bytes) (bitrateStr starttimeStr : bytes) : bytes :=
  let c := Strings.ReplaceAll c bitrate_token bitrateStr in
  let c := Strings.ReplaceAll c Bitrate_token bitrateStr in
  let c := Strings.ReplaceAll c start_time_token starttimeStr in
  let c := Strings.ReplaceAll c start_time_underscore_token starttimeStr in
  c.

(** A nil pointer is [None]; dereferencing it panics. *)
Definition ChunkURL {paths : PathLibrary}
    (baseURL : option URL) (stream : option StreamIndex)
    (level : option Track) (startTime : Z) : Result error URL :=
  match baseURL with
  | None => Panic
  | Some u =>
      match stream with
      | None => Panic
      | Some stream =>
          match Url stream with
          | None => Panic
          | Some c =>
              match level with
              | None => Panic
              | Some level =>
                  let bitrateStr :=
                    Strings.FormatUint10 (uint64 (Bitrate level)) in
                  let starttimeStr := Strings.FormatUint10 startTime in
                  let c := substitute c bitrateStr starttimeStr in
                  Ok (mkURL (Scheme u) (Opaque u) (User u) (Host u)
                        (path_Join [path_Dir (Path u); c])
                        (RawPath u) (ForceQuery u) (RawQuery u)
                        (Fragment u) (RawFragment u))
              end
          end
      end
  end.

(** [t] occurs inside [s]. *)
Definition occurs (t s : bytes) : Prop :=
  exists pre post, s = pre ++ t ++ post.

Definition is_digit (b : byte) : bool :=
  (48 <=? Byte.to_N b)%N && (Byte.to_N b <=? 57)%N.

(** The four tokens a pattern may hold. *)
Definition tokens : list bytes :=
  [bitrate_token; Bitrate_token; start_time_token;
   start_time_underscore_token].

(** The number a string of decimal digits denotes. *)
Definition decimal_value (digits : bytes) : Z :=
  fold_left (fun acc b => 10 * acc + (Z.of_N (Byte.to_N b) - 48)) digits 0.

(** No byte of [s] is an opening brace. *)
Definition brace_free (s : bytes) : Prop := Forall (fun b => b <> x7b) s.

(** [u] with its path replaced. *)
Definition with_path (u : URL) (path : bytes) : URL :=
  mkURL (Scheme u) (Opaque u) (User u) (Host u) path (RawPath u)
    (ForceQuery u) (RawQuery u) (Fragment u) (RawFragment u).

(** A pattern, a stream holding it, a track and a base address. *)
Definition sample_pattern : bytes :=
  list_byte_of_string
    "QualityLevels({bitrate})/Fragments(video={start time})".

Definition sample_stream (pattern : option bytes) : StreamIndex :=
  mkStreamIndex VideoStream None None None None None pattern
    None None None None None false [] [].

Definition sample_track (bitrate : Z) : Track :=
  mkTrack 0 bitrate None None None None None None None None [] None None.

Definition sample_base : URL :=
  mkURL (list_byte_of_string "https") [] None
    (list_byte_of_string "example.com")
    (list_byte_of_string "/video/Manifest") [] false [] [] [].

End Request.

(** A stand-in for the path library, used to run [ChunkURL]: the
    directory is the path before its last slash, joining puts a slash
    between the elements. *)
Fixpoint before_last_slash (p : bytes) : option bytes :=
  match p with
  | [] => None
  | b :: p' =>
      match before_last_slash p' with
      | Some d => Some (b :: d)
      | None => if Byte.eqb b x2f then Some [] else None
      end
  end.

Fixpoint join_with_slash (elems : list bytes) : bytes :=
  match elems with
  | [] => []
  | [e] => e
  | e :: rest => e ++ x2f :: join_with_slash rest
  end.

Definition sample_paths : PathLibrary := {|
  path_Dir := fun p =>
    match before_last_slash p with Some d => d | None => [] end;
  path_Join := join_with_slash
|}.

(** The parts of [Request.sample_pattern] around its two tokens. *)
Definition pattern_pre : bytes := list_byte_of_string "QualityLevels(".
Definition pattern_mid : bytes := list_byte_of_string ")/Fragments(video=".
Definition pattern_post : bytes := list_byte_of_string ")".

(** An AVC track without protection. *)
Definition avc_track : MoovProcessor :=
  sample_processor Avc1FourCC avc_private_data false VideoStream.

(** * Properties *)

(** ** Splitting on a non-empty separator *)

Section SplitFacts.

Variable sep : bytes.
Hypothesis sep_nonempty : sep <> [].

Lemma HasPrefix_length (s : bytes) :
  Bytes.HasPrefix s sep = true -> (List.length sep <= List.length s)%nat.
Proof.
  clear sep_nonempty. revert s.
  induction sep as [|p sep' IH]; intros s H; simpl; [lia|].
  destruct s as [|b s']; simpl in H; [discriminate|].
  destruct (Byte.eqb b p); [|discriminate].
  apply IH in H. simpl. lia.
Qed.

Lemma HasPrefix_nil : Bytes.HasPrefix [] sep = false.
Proof. destruct sep; [contradiction|reflexivity]. Qed.

Lemma Index_nil : Bytes.Index [] sep = None.
Proof. destruct sep; [contradiction|reflexivity]. Qed.

Lemma Index_cons (b : byte) (s : bytes) :
  Bytes.Index (b :: s) sep =
  if Bytes.HasPrefix (b :: s) sep then Some 0%nat
  else option_map S (Bytes.Index s sep).
Proof. reflexivity. Qed.

Lemma Index_bound (s : bytes) (i : nat) :
  Bytes.Index s sep = Some i ->
  (i + List.length sep <= List.length s)%nat.
Proof.
  revert i. induction s as [|b s IH]; intros i H.
  - rewrite Index_nil in H. discriminate.
  - rewrite Index_cons in H.
    destruct (Bytes.HasPrefix (b :: s) sep) eqn:Hp.
    + injection H as <-. apply HasPrefix_length in Hp. lia.
    + destruct (Bytes.Index s sep) as [j|]; [|discriminate].
      injection H as <-. specialize (IH j eq_refl). simpl. lia.
Qed.

Lemma sep_length_pos : (0 < List.length sep)%nat.
Proof. destruct sep; [contradiction|simpl; lia]. Qed.

Lemma skipn_found_length (s : bytes) (i : nat) :
  Bytes.Index s sep = Some i ->
  (List.length (skipn (i + List.length sep) s) < List.length s)%nat.
Proof.
  intros H. apply Index_bound in H. rewrite length_skipn.
  pose proof sep_length_pos. lia.
Qed.

Lemma Count_loop_rounds (r1 : nat) :
  forall (r2 : nat) (s : bytes),
    (List.length s <= r1)%nat -> (List.length s <= r2)%nat ->
    Bytes.Count_loop r1 s sep = Bytes.Count_loop r2 s sep.
Proof.
  induction r1 as [|r1 IH]; intros r2 s H1 H2.
  - destruct s; [|simpl in H1; lia].
    destruct r2; cbn [Bytes.Count_loop]; [reflexivity|].
    now rewrite Index_nil.
  - destruct r2 as [|r2].
    + destruct s; [|simpl in H2; lia]. cbn [Bytes.Count_loop].
      now rewrite Index_nil.
    + cbn [Bytes.Count_loop].
      destruct (Bytes.Index s sep) as [i|] eqn:Hi; [|reflexivity].
      f_equal. pose proof (skipn_found_length s i Hi). apply IH; lia.
Qed.

Lemma Count_unfold (s : bytes) :
  Bytes.Count s sep =
  match Bytes.Index s sep with
  | None => 0%nat
  | Some i => S (Bytes.Count (skipn (i + List.length sep) s) sep)
  end.
Proof.
  unfold Bytes.Count. destruct s as [|b s].
  - rewrite Index_nil. reflexivity.
  - change (List.length (b :: s)) with (S (List.length s)).
    cbn [Bytes.Count_loop].
    destruct (Bytes.Index (b :: s) sep) as [i|] eqn:Hi; [|reflexivity].
    f_equal. pose proof (skipn_found_length _ _ Hi) as Hl. simpl in Hl.
    apply Count_loop_rounds; lia.
Qed.

Lemma Count_loop_le (r : nat) :
  forall s : bytes, (Bytes.Count_loop r s sep <= List.length s)%nat.
Proof.
  induction r as [|r IH]; intros s; simpl; [lia|].
  destruct (Bytes.Index s sep) as [i|] eqn:Hi; [|lia].
  pose proof (skipn_found_length s i Hi).
  specialize (IH (skipn (i + List.length sep) s)). lia.
Qed.

Lemma Split_genSplit (s : bytes) :
  Bytes.Split s sep = Bytes.genSplit_loop (Bytes.Count s sep) s sep.
Proof.
  unfold Bytes.Split.
  pose proof (Count_loop_le (List.length s) s) as H.
  fold (Bytes.Count s sep) in H.
  replace (Nat.min (Bytes.Count s sep + 1) (List.length s + 1) - 1)%nat
    with (Bytes.Count s sep) by lia.
  reflexivity.
Qed.

(** [Split] as a recursion on the first instance of the separator. *)
Lemma Split_unfold (s : bytes) :
  Bytes.Split s sep =
  match Bytes.Index s sep with
  | None => [s]
  | Some m => firstn m s :: Bytes.Split (skipn (m + List.length sep) s) sep
  end.
Proof.
  rewrite Split_genSplit, Count_unfold.
  destruct (Bytes.Index s sep) as [m|] eqn:Hi.
  - simpl. rewrite Hi. now rewrite Split_genSplit.
  - simpl. reflexivity.
Qed.

(** [Split] never returns the empty slice. *)
Lemma Split_not_nil (s : bytes) : Bytes.Split s sep <> [].
Proof. rewrite Split_unfold. destruct (Bytes.Index s sep); discriminate. Qed.

Lemma Split_length_pos (s : bytes) :
  (1 <= List.length (Bytes.Split s sep))%nat.
Proof.
  pose proof (Split_not_nil s).
  destruct (Bytes.Split s sep); [contradiction|simpl; lia].
Qed.

Lemma Split_no_instance (s : bytes) :
  Bytes.Index s sep = None -> Bytes.Split s sep = [s].
Proof. intros H. now rewrite Split_unfold, H. Qed.

Lemma HasPrefix_app (r : bytes) : Bytes.HasPrefix (sep ++ r) sep = true.
Proof.
  clear sep_nonempty. induction sep as [|p sep' IH]; [now destruct r|].
  simpl. rewrite (@Byte.byte_dec_lb p p eq_refl). exact IH.
Qed.

Lemma Index_at_head (r : bytes) : Bytes.Index (sep ++ r) sep = Some 0%nat.
Proof.
  destruct (sep ++ r) eqn:E.
  - destruct sep; [contradiction|discriminate].
  - rewrite <- E. destruct (sep ++ r) eqn:E'; [discriminate|].
    rewrite Index_cons, <- E', HasPrefix_app. reflexivity.
Qed.

(** A separator at the head yields an empty first segment. *)
Lemma Split_at_head (r : bytes) :
  Bytes.Split (sep ++ r) sep = [] :: Bytes.Split r sep.
Proof.
  rewrite Split_unfold, Index_at_head. simpl.
  now rewrite skipn_app, skipn_all, Nat.sub_diag.
Qed.

(** A byte that does not start a separator joins the first segment. *)
Lemma Split_cons_other (b : byte) (s : bytes) :
  Bytes.HasPrefix (b :: s) sep = false ->
  Bytes.Split (b :: s) sep =
  match Bytes.Split s sep with
  | h :: t => (b :: h) :: t
  | [] => [[b]]
  end.
Proof.
  intros Hp. rewrite (Split_unfold (b :: s)), Index_cons, Hp.
  rewrite (Split_unfold s).
  destruct (Bytes.Index s sep) as [m|]; reflexivity.
Qed.

End SplitFacts.

(** ** Splitting on the start code *)

Lemma start_code_nonempty : start_code <> [].
Proof. discriminate. Qed.

Lemma HasPrefix_start_code (s : bytes) :
  Bytes.HasPrefix s start_code = true -> exists r, s = start_code ++ r.
Proof.
  destruct s as [|a [|b [|c [|d r]]]]; simpl; try discriminate;
    repeat match goal with
           | |- context [Byte.eqb ?x ?y] =>
               destruct (Byte.eqb x y) eqn:?; try discriminate
           end.
  intros _. exists r.
  repeat match goal with
         | H : Byte.eqb _ _ = true |- _ => apply Byte.byte_dec_bl in H
         end.
  now subst.
Qed.

(** The start code does not overlap itself. *)
Lemma start_code_no_overlap (r pre rest : bytes) :
  start_code ++ r = pre ++ start_code ++ rest ->
  pre = [] \/ exists pre', pre = start_code ++ pre'.
Proof.
  destruct pre as [|a [|b [|c [|d pre']]]]; simpl; intros H;
    [now left| | | |]; inversion H.
  right. now exists pre'.
Qed.

Lemma in_tl {A : Type} (x : A) (l : list A) : In x (tl l) -> In x l.
Proof. destruct l; simpl; auto. Qed.

Lemma Split_nil : Bytes.Split [] start_code = [[]].
Proof. reflexivity. Qed.

Lemma empty_segment_rec (n : nat) :
  forall s pre rest,
    (List.length s <= n)%nat ->
    s = pre ++ start_code ++ rest ->
    rest = [] \/ Bytes.HasPrefix rest start_code = true ->
    In [] (tl (Bytes.Split s start_code)).
Proof.
  induction n as [|n IH]; intros s pre rest Hn Hs Hrest.
  - subst s. rewrite length_app in Hn. simpl in Hn. lia.
  - destruct (Bytes.HasPrefix s start_code) eqn:Hp.
    + apply HasPrefix_start_code in Hp as [r Hr].
      rewrite Hr, (Split_at_head _ start_code_nonempty). simpl.
      rewrite Hr in Hs.
      destruct (start_code_no_overlap _ _ _ Hs) as [-> | [pre' ->]].
      * apply (app_inv_head start_code r rest) in Hs. subst r.
        destruct Hrest as [-> | Hrest].
        -- rewrite Split_nil. now left.
        -- apply HasPrefix_start_code in Hrest as [r' ->].
           rewrite (Split_at_head _ start_code_nonempty). now left.
      * rewrite <- app_assoc in Hs. apply app_inv_head in Hs.
        apply in_tl. apply (IH r pre' rest); auto.
        subst s. rewrite length_app in Hn. simpl in Hn. lia.
    + destruct pre as [|b pre'].
      * subst s. change ([] ++ start_code ++ rest) with (start_code ++ rest) in Hp.
        rewrite (HasPrefix_app start_code rest) in Hp. discriminate.
      * subst s.
        change ((b :: pre') ++ start_code ++ rest)
          with (b :: (pre' ++ start_code ++ rest)) in *.
        rewrite (Split_cons_other _ start_code_nonempty _ _ Hp).
        assert (In [] (tl (Bytes.Split (pre' ++ start_code ++ rest)
                             start_code))) as Hin.
        { apply (IH _ pre' rest); auto. apply le_S_n. exact Hn. }
        destruct (Bytes.Split (pre' ++ start_code ++ rest) start_code);
          [destruct Hin|exact Hin].
Qed.

(** A start code followed by a start code, or ending the input, leaves an
    empty unit among the candidate units. *)
Lemma empty_unit_of_start_code_then_nothing (cpd : bytes) :
  start_code_then_nothing cpd -> In [] (nal_units cpd).
Proof.
  unfold nal_units. intros [[pre [post ->]] | [pre ->]].
  - apply (empty_segment_rec _ _ pre (start_code ++ post) (le_n _) eq_refl).
    right. apply HasPrefix_app.
  - apply (empty_segment_rec _ _ pre [] (le_n _)); [|now left].
    now rewrite app_nil_r.
Qed.

(** ** Codec configuration extraction *)

Section Extraction.

Context {codec : CodecLibrary}.

Lemma split_guard (cpd : bytes) :
  (List.length (Bytes.Split cpd start_code) <? 1)%nat = false.
Proof.
  apply Nat.ltb_ge. apply Split_length_pos. exact start_code_nonempty.
Qed.

Lemma index_byte_first (nalu : bytes) :
  nalu <> [] -> @index_byte error nalu 0 = Ok (first_byte nalu).
Proof. destruct nalu; [contradiction|reflexivity]. Qed.

Lemma avc_collect_empty_unit (nalus : list bytes) :
  In [] nalus -> forall sps pps, avc_collect nalus sps pps = Panic.
Proof.
  induction nalus as [|nalu rest IH]; intros Hin sps pps; [destruct Hin|].
  destruct nalu as [|b nalu]; [reflexivity|].
  destruct Hin as [Hin|Hin]; [discriminate|].
  cbn [avc_collect index_byte nth_error bind].
  destruct (_ =? avc_NALU_SPS); [now apply IH|].
  destruct (_ =? avc_NALU_PPS); now apply IH.
Qed.

Lemma hevc_collect_empty_unit (nalus : list bytes) :
  In [] nalus -> forall vps sps pps, hevc_collect nalus vps sps pps = Panic.
Proof.
  induction nalus as [|nalu rest IH]; intros Hin vps sps pps; [destruct Hin|].
  destruct nalu as [|b nalu]; [reflexivity|].
  destruct Hin as [Hin|Hin]; [discriminate|].
  cbn [hevc_collect index_byte nth_error bind].
  destruct (_ =? hevc_NALU_VPS); [now apply IH|].
  destruct (_ =? hevc_NALU_SPS); [now apply IH|].
  destruct (_ =? hevc_NALU_PPS); now apply IH.
Qed.

Lemma avc_collect_no_error (nalus : list bytes) :
  forall sps pps e, avc_collect nalus sps pps <> Err e.
Proof.
  induction nalus as [|nalu rest IH]; intros sps pps e; [discriminate|].
  destruct nalu as [|b nalu]; [discriminate|].
  cbn [avc_collect index_byte nth_error bind].
  destruct (_ =? avc_NALU_SPS); [apply IH|].
  destruct (_ =? avc_NALU_PPS); apply IH.
Qed.

Lemma avc_collect_readable (nalus : list bytes) :
  Forall (fun nalu => nalu <> []) nalus ->
  forall sps pps,
    avc_collect nalus sps pps =
    Ok (sps ++ map mkAVCSPS (filter avc_is_sps nalus),
        pps ++ map mkAVCPPS (filter avc_is_pps nalus)).
Proof.
  induction 1 as [|nalu rest Hne _ IH]; intros sps pps.
  - simpl. now rewrite !app_nil_r.
  - cbn [avc_collect]. rewrite (index_byte_first _ Hne). cbn [bind filter].
    unfold avc_is_pps, avc_is_sps.
    destruct (avc_GetNaluType (first_byte nalu) =? avc_NALU_SPS).
    + rewrite IH. cbn [negb andb map]. now rewrite <- app_assoc.
    + destruct (avc_GetNaluType (first_byte nalu) =? avc_NALU_PPS).
      * rewrite IH. cbn [negb andb map]. now rewrite <- app_assoc.
      * rewrite IH. reflexivity.
Qed.

Lemma hevc_collect_readable (nalus : list bytes) :
  Forall (fun nalu => nalu <> []) nalus ->
  forall vps sps pps,
    hevc_collect nalus vps sps pps =
    Ok (vps ++ filter hevc_is_vps nalus,
        sps ++ filter hevc_is_sps nalus,
        pps ++ filter hevc_is_pps nalus).
Proof.
  induction 1 as [|nalu rest Hne _ IH]; intros vps sps pps.
  - simpl. now rewrite !app_nil_r.
  - cbn [hevc_collect]. rewrite (index_byte_first _ Hne). cbn [bind filter].
    unfold hevc_is_pps, hevc_is_sps, hevc_is_vps.
    destruct (hevc_GetNaluType (first_byte nalu) =? hevc_NALU_VPS).
    + rewrite IH. cbn [negb andb]. now rewrite <- app_assoc.
    + destruct (hevc_GetNaluType (first_byte nalu) =? hevc_NALU_SPS).
      * rewrite IH. cbn [negb andb]. now rewrite <- app_assoc.
      * destruct (hevc_GetNaluType (first_byte nalu) =? hevc_NALU_PPS).
        -- rewrite IH. cbn [negb andb]. now rewrite <- app_assoc.
        -- rewrite IH. reflexivity.
Qed.

(** The guard on the number of segments never fires: the AVC path is the
    loop and the profile bytes. *)
Lemma CreateAvcCMp4Box_unfold (p : MoovProcessor) :
  CreateAvcCMp4Box p =
  (sp <- avc_collect (nal_units (CodecPrivateData p)) [] [] ;;
   let '(sps, pps) := sp in
   prof <- match sps with
           | [] => Ok (x00, x00, x00)
           | sps0 :: _ =>
               a <- index_byte (sps_NALUnit sps0) 1 ;;
               b <- index_byte (sps_NALUnit sps0) 2 ;;
               c <- index_byte (sps_NALUnit sps0) 3 ;;
               Ok (a, b, c)
           end ;;
   let '(a, b, c) := prof in
   Ok (new_box (AVCConfigurationBox (mkAVCConfig 1 a b c 3 sps pps)))).
Proof. unfold CreateAvcCMp4Box. now rewrite split_guard. Qed.

Lemma CreateHvcCMp4Box_unfold (p : MoovProcessor) :
  CreateHvcCMp4Box p =
  (sets <- hevc_collect (nal_units (CodecPrivateData p)) [] [] [] ;;
   let '(vpsNalus, spsNalus, ppsNalus) := sets in
   if (List.length spsNalus =? 0)%nat then
     Err (Errorf "cannot find hevc sps nalu")
   else
     conf <- CreateHEVCDecoderConfigurationRecord
               vpsNalus spsNalus ppsNalus true true true ;;
     Ok (new_box (HEVCConfigurationBox conf))).
Proof. unfold CreateHvcCMp4Box. now rewrite split_guard. Qed.

(** The AVC path never returns an error value. *)
Lemma CreateAvcCMp4Box_no_error (p : MoovProcessor) (e : error) :
  CreateAvcCMp4Box p <> Err e.
Proof.
  rewrite CreateAvcCMp4Box_unfold.
  destruct (avc_collect _ _ _) as [[sps pps]| e' |] eqn:Hc;
    cbn [bind]; [| |discriminate].
  - destruct sps as [|sps0 sps']; cbn [bind]; [discriminate|].
    unfold index_byte.
    destruct (nth_error _ 1); cbn [bind]; [|discriminate].
    destruct (nth_error _ 2); cbn [bind]; [|discriminate].
    destruct (nth_error _ 3); cbn [bind]; discriminate.
  - now apply avc_collect_no_error in Hc.
Qed.

Lemma index_byte_at (nalu : bytes) (i : nat) :
  (i < List.length nalu)%nat -> @index_byte error nalu i = Ok (byte_at nalu i).
Proof.
  intros H. unfold index_byte, byte_at.
  now rewrite (nth_error_nth' nalu x00 H).
Qed.

(** On readable units the AVC path returns the record of the
    specification. *)
Lemma CreateAvcCMp4Box_readable (p : MoovProcessor) :
  avc_readable (nal_units (CodecPrivateData p)) ->
  CreateAvcCMp4Box p =
  Ok (new_box (AVCConfigurationBox
                 (avc_record_of (nal_units (CodecPrivateData p))))).
Proof.
  intros [Hne Hsps]. rewrite CreateAvcCMp4Box_unfold.
  rewrite (avc_collect_readable _ Hne). cbn [bind app].
  unfold avc_record_of.
  destruct (filter avc_is_sps _) as [|sps0 sps']; cbn [map bind hd].
  - reflexivity.
  - cbn [sps_NALUnit]. rewrite !index_byte_at by lia. reflexivity.
Qed.

End Extraction.

(** ** Two units, one start code before each *)

Lemma HasPrefix_before_start_code (s r : bytes) :
  Bytes.HasPrefix s start_code = false ->
  s <> [] ->
  Bytes.HasPrefix (s ++ start_code ++ r) start_code = false.
Proof.
  intros Hp Hne.
  destruct (Bytes.HasPrefix (s ++ start_code ++ r) start_code) eqn:Hq;
    [|reflexivity].
  apply HasPrefix_start_code in Hq as [r' Hr']. symmetry in Hr'.
  destruct (start_code_no_overlap _ _ _ Hr') as [-> | [pre' ->]];
    [contradiction|].
  now rewrite HasPrefix_app in Hp.
Qed.

Lemma Index_before_start_code (s r : bytes) :
  Bytes.Index s start_code = None ->
  Bytes.Index (s ++ start_code ++ r) start_code = Some (List.length s).
Proof.
  induction s as [|b s IH]; intros Hi.
  - apply (Index_at_head _ start_code_nonempty).
  - rewrite (Index_cons start_code) in Hi.
    destruct (Bytes.HasPrefix (b :: s) start_code) eqn:Hp; [discriminate|].
    destruct (Bytes.Index s start_code) eqn:Hs; [discriminate|].
    change ((b :: s) ++ start_code ++ r)
      with (b :: (s ++ start_code ++ r)).
    rewrite (Index_cons start_code).
    change (b :: (s ++ start_code ++ r))
      with ((b :: s) ++ start_code ++ r).
    rewrite (HasPrefix_before_start_code _ r Hp) by discriminate.
    change ((b :: s) ++ start_code ++ r)
      with (b :: (s ++ start_code ++ r)).
    now rewrite IH.
Qed.

Lemma Split_two_units (sps pps : bytes) :
  Bytes.Index sps start_code = None ->
  Bytes.Index pps start_code = None ->
  Bytes.Split (start_code ++ sps ++ start_code ++ pps) start_code =
  [[]; sps; pps].
Proof.
  intros Hs Hp.
  rewrite (Split_at_head _ start_code_nonempty).
  rewrite (Split_unfold _ start_code_nonempty (sps ++ start_code ++ pps)).
  rewrite (Index_before_start_code _ _ Hs).
  rewrite firstn_app, firstn_all, Nat.sub_diag, firstn_O, app_nil_r.
  rewrite skipn_app, skipn_all2 by lia.
  replace (List.length sps + List.length start_code - List.length sps)%nat
    with (List.length start_code) by lia.
  rewrite skipn_app, skipn_all, Nat.sub_diag. cbn [app skipn].
  now rewrite (Split_no_instance _ start_code_nonempty _ Hp).
Qed.

Section ExtractionClaims.

Context {codec : CodecLibrary}.

(** The example of the specification: a start code, a sequence parameter
    set beginning [67 42 00 1F], a start code, a picture parameter set.
    Neither parameter set contains a start code. *)
Lemma CreateAvcCMp4Box_sps_pps (p : MoovProcessor) (sps_tail pps_tail : bytes) :
  let sps := [x67; x42; x00; x1f] ++ sps_tail in
  let pps := x68 :: pps_tail in
  CodecPrivateData p = start_code ++ sps ++ start_code ++ pps ->
  Bytes.Index sps start_code = None ->
  Bytes.Index pps start_code = None ->
  CreateAvcCMp4Box p =
  Ok (new_box (AVCConfigurationBox
                 (mkAVCConfig 1 x42 x00 x1f 3 [mkAVCSPS sps] [mkAVCPPS pps]))).
Proof.
  intros sps pps Hcpd Hs Hp.
  rewrite CreateAvcCMp4Box_unfold. unfold nal_units.
  rewrite Hcpd, (Split_two_units _ _ Hs Hp). reflexivity.
Qed.

(** An input without any start code has no candidate unit; the HEVC path
    then reports the missing sequence parameter set. *)
Lemma CreateHvcCMp4Box_no_start_code (p : MoovProcessor) :
  Bytes.Index (CodecPrivateData p) start_code = None ->
  CreateHvcCMp4Box p = Err (Errorf "cannot find hevc sps nalu").
Proof.
  intros H. rewrite CreateHvcCMp4Box_unfold. unfold nal_units.
  now rewrite (Split_no_instance _ start_code_nonempty _ H).
Qed.

(** Readable units none of which is a sequence parameter set: the HEVC
    path reports the missing parameter set, whatever the video and
    picture parameter sets are. *)
Lemma CreateHvcCMp4Box_missing_sps (p : MoovProcessor) :
  Forall (fun nalu => nalu <> []) (nal_units (CodecPrivateData p)) ->
  filter hevc_is_sps (nal_units (CodecPrivateData p)) = [] ->
  CreateHvcCMp4Box p = Err (Errorf "cannot find hevc sps nalu").
Proof.
  intros Hne Hsps. rewrite CreateHvcCMp4Box_unfold.
  rewrite (hevc_collect_readable _ Hne), Hsps. reflexivity.
Qed.

(** An input without any start code has no candidate unit; the AVC path
    returns a record without parameter sets. *)
Lemma CreateAvcCMp4Box_no_start_code (p : MoovProcessor) :
  Bytes.Index (CodecPrivateData p) start_code = None ->
  CreateAvcCMp4Box p =
  Ok (new_box (AVCConfigurationBox (mkAVCConfig 1 x00 x00 x00 3 [] []))).
Proof.
  intros H. rewrite CreateAvcCMp4Box_unfold. unfold nal_units.
  now rewrite (Split_no_instance _ start_code_nonempty _ H).
Qed.

(** C9.  When a start code is immediately followed by another start code,
    or terminates the codec private data, splitting leaves an empty unit
    after the first segment, and both [CreateAvcCMp4Box] and
    [CreateHvcCMp4Box] read its byte 0 without a bounds check: neither
    returns a value or an error, both panic. *)
Theorem empty_unit_panics (p : MoovProcessor) :
  start_code_then_nothing (CodecPrivateData p) ->
  In [] (nal_units (CodecPrivateData p)) /\
  CreateAvcCMp4Box p = Panic /\
  CreateHvcCMp4Box p = Panic.
Proof.
  intros H. apply empty_unit_of_start_code_then_nothing in H.
  split; [exact H|]. split.
  - rewrite CreateAvcCMp4Box_unfold.
    now rewrite (avc_collect_empty_unit _ H).
  - rewrite CreateHvcCMp4Box_unfold.
    now rewrite (hevc_collect_empty_unit _ H).
Qed.

(** C3.  [CreateAvcCMp4Box] does not return a record for every codec
    private data: on the input [00 00 00 01], which has no sequence
    parameter set, and on [00 00 00 01 67], whose sequence parameter set
    lacks the bytes at offsets 1 to 3, it panics. *)
Theorem CreateAvcCMp4Box_unreadable_panics :
  filter avc_is_sps (nal_units start_code) = [] /\
  CreateAvcCMp4Box
    (sample_processor Avc1FourCC start_code false VideoStream) = Panic /\
  filter avc_is_sps (nal_units (start_code ++ [x67])) = [[x67]] /\
  CreateAvcCMp4Box
    (sample_processor Avc1FourCC (start_code ++ [x67]) false VideoStream)
  = Panic.
Proof. repeat split; reflexivity. Qed.

(** C5.  On codec private data without any start code (here the empty
    input) [CreateHvcCMp4Box] does not fail with the invalid-parameter
    error: the guard on the number of segments cannot fire, and the error
    returned is the one for a missing sequence parameter set. *)
Theorem CreateHvcCMp4Box_empty_input :
  nal_units [] = [] /\
  CreateHvcCMp4Box (sample_processor Hvc1FourCC [] false VideoStream) =
  Err (Errorf "cannot find hevc sps nalu") /\
  MissingRequiredParameterSet (Errorf "cannot find hevc sps nalu") /\
  ~ InvalidCodecPrivateData (Errorf "cannot find hevc sps nalu").
Proof.
  repeat split; try reflexivity.
  unfold InvalidCodecPrivateData. simpl. discriminate.
Qed.

(** C6.  [CreateAvcCMp4Box] never fails with the invalid-parameter error,
    and on codec private data without any candidate unit (here the empty
    input) it succeeds, returning a record without parameter sets. *)
Theorem CreateAvcCMp4Box_empty_input :
  (forall p e, CreateAvcCMp4Box p <> Err e) /\
  nal_units [] = [] /\
  CreateAvcCMp4Box (sample_processor Avc1FourCC [] false VideoStream) =
  Ok (new_box (AVCConfigurationBox (mkAVCConfig 1 x00 x00 x00 3 [] []))).
Proof.
  split; [exact CreateAvcCMp4Box_no_error|]. split; reflexivity.
Qed.

End ExtractionClaims.

(** ** Sample entries *)

Section SampleEntries.

Context {codec : CodecLibrary}.

Lemma CreateAvcCMp4Box_is_avcC (p : MoovProcessor) (avcC : Box) :
  CreateAvcCMp4Box p = Ok avcC ->
  exists conf, avcC = new_box (AVCConfigurationBox conf).
Proof.
  rewrite CreateAvcCMp4Box_unfold.
  destruct (avc_collect _ _ _) as [[sps pps]| |]; cbn [bind];
    [|discriminate|discriminate].
  destruct (match sps with [] => _ | _ => _ end) as [[[a b] c]| |];
    cbn [bind]; [|discriminate|discriminate].
  intros H. injection H as <-. eauto.
Qed.

Lemma CreateHvcCMp4Box_is_hvcC (p : MoovProcessor) (hvcC : Box) :
  CreateHvcCMp4Box p = Ok hvcC ->
  exists conf, hvcC = new_box (HEVCConfigurationBox conf).
Proof.
  rewrite CreateHvcCMp4Box_unfold.
  destruct (hevc_collect _ _ _ _) as [[[vps sps] pps]| |]; cbn [bind];
    [|discriminate|discriminate].
  destruct (_ =? _)%nat; [discriminate|].
  destruct (CreateHEVCDecoderConfigurationRecord _ _ _ _ _ _);
    cbn [bind]; [|discriminate|discriminate].
  intros H. injection H as <-. eauto.
Qed.

Lemma CreateSinfMp4Box_tree (p : MoovProcessor) :
  CreateSinfMp4Box p = Ok (sinf_tree (Codec p) (KID p)).
Proof. reflexivity. Qed.

(** The AVC sample entry, once the configuration box is built. *)
Lemma CreateAvc1Mp4Box_built (p : MoovProcessor) (avcC : Box) :
  CreateAvcCMp4Box p = Ok avcC ->
  CreateAvc1Mp4Box p =
  Ok (mkBox (if Protected p then EncvBoxType else Avc1FourCC) 0 0
        (VisualSampleEntryBox 1 (uint16 (Width p)) (uint16 (Height p))
           72 72 1 "AVC Coding" 24)
        (avcC :: if Protected p then [sinf_tree (Codec p) (KID p)] else [])).
Proof.
  intros H. unfold CreateAvc1Mp4Box. rewrite H. cbn [bind].
  destruct (Protected p); reflexivity.
Qed.

(** The HEVC sample entry, once the configuration box is built. *)
Lemma CreateHvc1Mp4Box_built (p : MoovProcessor) (hvcC : Box) :
  CreateHvcCMp4Box p = Ok hvcC ->
  CreateHvc1Mp4Box p =
  Ok (mkBox (if Protected p then EncvBoxType else Codec p) 0 0
        (VisualSampleEntryBox 1 (uint16 (Width p)) (uint16 (Height p))
           72 72 1 "HEVC Coding" 24)
        (hvcC :: if Protected p then [sinf_tree (Codec p) (KID p)] else [])).
Proof.
  intros H. unfold CreateHvc1Mp4Box. rewrite H. cbn [bind].
  destruct (Protected p); reflexivity.
Qed.

Lemma hevc_dispatch (p : MoovProcessor) :
  Codec p = Hvc1FourCC \/ Codec p = Hev1FourCC ->
  CreateSampleEntryMp4Box p = CreateHvc1Mp4Box p.
Proof.
  unfold CreateSampleEntryMp4Box. intros [-> | ->]; reflexivity.
Qed.

(** C1, as the code has it.  For a processor whose codec is one of the
    two HEVC codes and whose HEVC configuration box can be built,
    [CreateSampleEntryMp4Box] returns a visual sample entry whose box type
    is the codec code itself when the track is not protected and the
    encrypted type when it is, with compressor name "HEVC Coding" and the
    HEVC configuration box as first child. *)
Theorem CreateSampleEntryMp4Box_hevc (p : MoovProcessor) (hvcC : Box) :
  Codec p = Hvc1FourCC \/ Codec p = Hev1FourCC ->
  CreateHvcCMp4Box p = Ok hvcC ->
  exists entry,
    CreateSampleEntryMp4Box p = Ok entry /\
    Header_Type entry = (if Protected p then EncvBoxType else Codec p) /\
    body entry =
      VisualSampleEntryBox 1 (uint16 (Width p)) (uint16 (Height p))
        72 72 1 "HEVC Coding" 24 /\
    is_hvcC hvcC = true /\
    children entry =
      hvcC :: (if Protected p then [sinf_tree (Codec p) (KID p)] else []).
Proof.
  intros Hc Hh. rewrite (hevc_dispatch p Hc).
  rewrite (CreateHvc1Mp4Box_built p hvcC Hh).
  eexists. split; [reflexivity|]. repeat split.
  apply CreateHvcCMp4Box_is_hvcC in Hh as [conf ->]. reflexivity.
Qed.

(** C2.  For a protected processor with the AVC codec, the sample entry
    [CreateAvc1Mp4Box] returns has the encrypted box type and exactly two
    children: the AVC configuration box, then the protection-scheme
    subtree, whose original-format box carries the AVC code, whose
    scheme-type box is "cenc" version 0x00010000, and whose
    scheme-information box holds a track-encryption box with
    default-is-protected 1, IV size 8 and the processor's KID. *)
Theorem CreateAvc1Mp4Box_protected (p : MoovProcessor) (entry : Box) :
  Protected p = true ->
  Codec p = Avc1FourCC ->
  CreateAvc1Mp4Box p = Ok entry ->
  exists avcC,
    CreateAvcCMp4Box p = Ok avcC /\
    is_avcC avcC = true /\
    Header_Type entry = EncvBoxType /\
    children entry =
      [avcC;
       mkBox ZeroFourCC 0 0 ProtectionSchemeInfoBox
         [new_box (OriginalFormatBox Avc1FourCC);
          new_box (SchemeTypeBox CencFourCC 65536);
          mkBox ZeroFourCC 0 0 SchemeInformationBox
            [new_box (TrackEncryptionBox 1 8 (KID p))]]].
Proof.
  intros Hprot Hcodec Hentry.
  destruct (CreateAvcCMp4Box p) as [avcC| |] eqn:Havc.
  - rewrite (CreateAvc1Mp4Box_built p avcC Havc), Hprot, Hcodec in Hentry.
    injection Hentry as <-. exists avcC. split; [reflexivity|].
    apply CreateAvcCMp4Box_is_avcC in Havc as [conf ->].
    repeat split.
  - unfold CreateAvc1Mp4Box in Hentry. rewrite Havc in Hentry. discriminate.
  - unfold CreateAvc1Mp4Box in Hentry. rewrite Havc in Hentry. discriminate.
Qed.

Lemma string_append_assoc (a b c : string) :
  ((a ++ b) ++ c = a ++ (b ++ c))%string.
Proof. induction a as [|x a IH]; simpl; [reflexivity|now rewrite IH]. Qed.

Lemma append_mentions (a s b : string) : mentions (a ++ s ++ b)%string s.
Proof. now exists a, b. Qed.

(** C4.  For a processor whose codec is neither the AVC code nor one of
    the two HEVC codes, [CreateSampleEntryMp4Box] fails with an error that
    wraps the unknown-codec error and whose message names the codec. *)
Theorem CreateSampleEntryMp4Box_unsupported (p : MoovProcessor) :
  Codec p <> Avc1FourCC ->
  Codec p <> Hvc1FourCC ->
  Codec p <> Hev1FourCC ->
  exists e,
    CreateSampleEntryMp4Box p = Err e /\
    UnsupportedCodec e /\
    error_message e =
      ("codec " ++ Codec p ++ " not supported: codec not supported")%string /\
    mentions (error_message e) (Codec p).
Proof.
  intros Ha Hh He. unfold CreateSampleEntryMp4Box.
  apply String.eqb_neq in Ha, Hh, He. rewrite Ha, Hh, He. cbn [orb].
  eexists. split; [reflexivity|]. split; [reflexivity|].
  assert (error_message
            (Errorf_wrap ("codec " ++ Codec p ++ " not supported")
               ErrUnknownCodec) =
          ("codec " ++ Codec p ++ " not supported: codec not supported")%string)
    as Hmsg.
  { unfold Errorf_wrap, error_message, sentinel_message.
    now rewrite !string_append_assoc. }
  split; [exact Hmsg|]. rewrite Hmsg. apply append_mentions.
Qed.

End SampleEntries.

(** ** Media information and headers *)

Section MediaBoxes.

Context {codec : CodecLibrary}.

Lemma CreateDinfMp4Box_tree (p : MoovProcessor) :
  CreateDinfMp4Box p = Ok dinf_tree.
Proof. reflexivity. Qed.





Lemma truncation_differs (t : Z) : 2 ^ 32 <= t -> uint32 t <> t.
Proof.
  intros H. unfold uint32.
  pose proof (Z.mod_pos_bound t (2 ^ 32) ltac:(lia)). lia.
Qed.

Lemma CreateMdiaMp4Box_children (p : MoovProcessor) (mdia : Box) :
  CreateMdiaMp4Box p = Ok mdia ->
  exists minf, children mdia = [mdia_mdhd p; mdia_hdlr p; minf].
Proof.
  unfold CreateMdiaMp4Box.
  destruct (CreateMinfMp4Box p) as [minf| |]; cbn [bind];
    [|discriminate|discriminate].
  intros H. injection H as <-. now exists minf.
Qed.

(** C10.  The movie header and the media header carry the timescale
    truncated to 32 bits and the duration [Duration * Timescale] computed
    modulo 2^64; so for a timescale of 2^32 or more the timescale written
    is not the timescale the written duration was computed with. *)
Theorem timescale_truncated_duration_not :
  (forall p : MoovProcessor,
      exists mvhd,
        CreateMvhdMp4Box p = Ok mvhd /\
        written_timescale mvhd = Some (Timescale p mod 2 ^ 32) /\
        written_duration mvhd =
          Some ((Duration p * Timescale p) mod 2 ^ 64) /\
        (2 ^ 32 <= Timescale p ->
         written_timescale mvhd <> Some (Timescale p))) /\
  (forall (p : MoovProcessor) (mdia : Box),
      CreateMdiaMp4Box p = Ok mdia ->
      exists mdhd rest,
        children mdia = mdhd :: rest /\
        written_timescale mdhd = Some (Timescale p mod 2 ^ 32) /\
        written_duration mdhd =
          Some ((Duration p * Timescale p) mod 2 ^ 64) /\
        (2 ^ 32 <= Timescale p ->
         written_timescale mdhd <> Some (Timescale p))).
Proof.
  split.
  - intros p. eexists. split; [reflexivity|]. repeat split.
    intros H E. injection E as E. now apply (truncation_differs _ H).
  - intros p mdia H.
    destruct (CreateMdiaMp4Box_children p mdia H) as [minf ->].
    exists (mdia_mdhd p), [mdia_hdlr p; minf]. repeat split.
    intros Ht E. injection E as E. now apply (truncation_differs _ Ht).
Qed.

End MediaBoxes.

(** ** Timeline resolution *)

Section Timeline.

Import Manifest.

Lemma expand_length (start duration : Z) (count : nat) :
  List.length (expand start duration count) = count.
Proof. unfold expand. now rewrite length_map, length_seq. Qed.

Lemma seq_from (n : nat) :
  forall off, seq off n = map (Nat.add off) (seq 0 n).
Proof.
  induction n as [|n IH]; intros off; [reflexivity|].
  cbn [seq map]. rewrite Nat.add_0_r. f_equal.
  rewrite (IH (S off)), (IH 1%nat), map_map.
  apply map_ext. intros k. lia.
Qed.

Lemma combine_map_same {A B C : Type} (g : A -> B) (f : A -> C)
    (l : list A) :
  combine (map g l) (map f l) = map (fun k => (g k, f k)) l.
Proof. induction l as [|x l IH]; [reflexivity|]. cbn. now rewrite IH. Qed.

Lemma combine_app_same {A B : Type} (a : list A) (a' : list B) :
  List.length a = List.length a' ->
  forall b b', combine (a ++ b) (a' ++ b') = combine a a' ++ combine b b'.
Proof.
  revert a'. induction a as [|x a IH]; intros [|y a'] H b b';
    try discriminate; [reflexivity|].
  cbn. f_equal. apply IH. now injection H.
Qed.

(** The entries of one group with their positions in the output. *)
Lemma indexed_expand (off : nat) (start duration : Z) (count : nat) :
  map (fun '(i, (s, d)) => mkResolvedFragment s d i)
      (combine (seq off count) (expand start duration count)) =
  map (fun k =>
         mkResolvedFragment (start + Z.of_nat k * duration) duration
           (off + k))
      (seq 0 count).
Proof.
  unfold expand. rewrite (seq_from count off), combine_map_same, map_map.
  reflexivity.
Qed.

Lemma indexed_app (off : nat) (a b : list (Z * Z)) :
  map (fun '(i, (s, d)) => mkResolvedFragment s d i)
      (combine (seq off (List.length (a ++ b))) (a ++ b)) =
  map (fun '(i, (s, d)) => mkResolvedFragment s d i)
      (combine (seq off (List.length a)) a) ++
  map (fun '(i, (s, d)) => mkResolvedFragment s d i)
      (combine (seq (off + List.length a) (List.length b)) b).
Proof.
  rewrite length_app, seq_app, combine_app_same, map_app;
    [reflexivity|apply length_seq].
Qed.

(** The running edge after a block: the end of its last entry, or the
    edge before it when the block is empty. *)
Lemma edge_after_block (prev : Z) (off : nat) (start duration : Z)
    (count : nat) :
  match last (map Some (expand start duration count)) None with
  | Some (s, d) => s + d
  | None => prev
  end =
  match rev (map (fun k =>
                    mkResolvedFragment (start + Z.of_nat k * duration)
                      duration (off + k))
                 (seq 0 count)) with
  | [] => prev
  | f :: _ => startTimeTicks f + durationTicks f
  end.
Proof.
  destruct count as [|n]; [reflexivity|].
  unfold expand. rewrite seq_S, !map_app. cbn [map].
  rewrite rev_app_distr, last_last. reflexivity.
Qed.

Lemma edge_app (prev : Z) (a b : list ResolvedFragment) :
  match rev (a ++ b) with
  | [] => prev
  | f :: _ => startTimeTicks f + durationTicks f
  end =
  match rev b with
  | [] => match rev a with
          | [] => prev
          | f :: _ => startTimeTicks f + durationTicks f
          end
  | f :: _ => startTimeTicks f + durationTicks f
  end.
Proof. rewrite rev_app_distr. now destruct (rev b). Qed.

(** Resolution from a running edge [prev], with [off] entries already
    emitted. *)
Lemma resolve_blocks_entries (tolerant : bool) (total : Z)
    (groups : list StreamFragment) :
  forall prev off pairs,
    resolve_blocks tolerant total prev groups = inr pairs ->
    exists blocks : list (list ResolvedFragment),
      map (fun '(i, (s, d)) => mkResolvedFragment s d i)
          (combine (seq off (List.length (List.concat pairs)))
                   (List.concat pairs)) = List.concat blocks /\
      List.length blocks = List.length groups /\
      forall i g block,
        nth_error groups i = Some g ->
        nth_error blocks i = Some block ->
        exists start duration,
          (forall t, Time g = Some t -> start = t) /\
          (Time g = None ->
           start = match rev (List.concat (firstn i blocks)) with
                   | [] => prev
                   | f :: _ => startTimeTicks f + durationTicks f
                   end) /\
          (forall d, Duration g = Some d -> duration = d) /\
          (Duration g = None -> nth_error groups (S i) = None ->
           duration = total - start) /\
          (Duration g = None ->
           forall next t,
             nth_error groups (S i) = Some next -> Time next = Some t ->
             duration = t - start) /\
          block =
            map (fun k =>
                   mkResolvedFragment (start + Z.of_nat k * duration)
                     duration
                     (off + List.length (List.concat (firstn i blocks)) + k))
                (seq 0 (match Repeat g with
                        | Some r => Z.to_nat r
                        | None => 1%nat
                        end)).
Proof.
  induction groups as [|g rest IH]; intros prev off pairs H.
  - injection H as <-. exists []. split; [reflexivity|].
    split; [reflexivity|]. intros [|i] g block Hg; discriminate.
  - cbn [resolve_blocks] in H.
    set (start := match Time g with Some t => t | None => prev end) in *.
    destruct (negb tolerant && _); [discriminate|].
    destruct (match Duration g with Some d => _ | None => _ end)
      as [duration|] eqn:Hd; [|discriminate].
    set (count := repeatCount g) in *.
    rewrite (edge_after_block prev off start duration count) in H.
    set (block0 :=
           map (fun k =>
                  mkResolvedFragment (start + Z.of_nat k * duration)
                    duration (off + k)) (seq 0 count)) in *.
    destruct (resolve_blocks tolerant total _ rest) as [|pairs'] eqn:Hr;
      [discriminate|].
    injection H as <-.
    destruct (IH _ (off + count)%nat _ Hr) as [blocks' [Hc [Hl Hg]]].
    exists (block0 :: blocks'). split; [|split].
    + cbn [List.concat]. rewrite indexed_app, expand_length.
      rewrite indexed_expand. fold block0. now rewrite Hc.
    + cbn [List.length]. now rewrite Hl.
    + intros i g' block Hi Hb. destruct i as [|i].
      * injection Hi as <-. injection Hb as <-.
        exists start, duration. cbn [firstn List.concat rev List.length].
        split; [intros t Ht; subst start; now rewrite Ht|].
        split; [intros Ht; subst start; now rewrite Ht|].
        split; [intros d Hd'; rewrite Hd' in Hd; now injection Hd|].
        split; [|split].
        -- intros Hn Hnext. rewrite Hn in Hd. cbn in Hnext.
           destruct rest; [now injection Hd|discriminate].
        -- intros Hn next t Hnext Ht. rewrite Hn in Hd. cbn in Hnext.
           destruct rest as [|n' rest']; [discriminate|].
           injection Hnext as ->. rewrite Ht in Hd. now injection Hd.
        -- unfold block0, count, repeatCount.
           apply map_ext. intros k. now rewrite Nat.add_0_r.
      * cbn [nth_error] in Hi, Hb.
        destruct (Hg i g' block Hi Hb)
          as [s [d [H1 [H2 [H3 [H4 [H5 H6]]]]]]].
        exists s, d. split; [exact H1|]. split.
        { intros Ht. rewrite (H2 Ht). cbn [firstn List.concat].
          now rewrite edge_app. }
        split; [exact H3|]. split; [exact H4|]. split; [exact H5|].
        rewrite H6. cbn [firstn List.concat]. rewrite length_app.
        apply map_ext. intros k. f_equal.
        unfold block0. rewrite length_map, length_seq. lia.
Qed.

(** C8.  Timeline resolution expands every fragment group by its repeat
    count (1 by default): the output is the concatenation of one block
    per group, in manifest order; the block of a group has as many
    entries as its repeat count, all of the group's duration, the k-th
    starting at the group's resolved start plus k times the duration and
    numbered by its position in the whole output.  The resolved start is
    the group's explicit time or, without one, the end of the last entry
    emitted before it (0 when there is none); the duration is the
    explicit one or, without one, the distance to the next group's
    explicit time or to the end of the presentation.  A single group with
    start 0, duration 500 and repeat 3 resolves to the three fragments
    starting at 0, 500 and 1000, each of duration 500. *)
Theorem resolve_repeat_expansion :
  (forall tolerant total groups fragments,
      resolve tolerant total groups = inr fragments ->
      exists blocks : list (list ResolvedFragment),
        fragments = List.concat blocks /\
        List.length blocks = List.length groups /\
        forall i g block,
          nth_error groups i = Some g ->
          nth_error blocks i = Some block ->
          exists start duration,
            (forall t, Time g = Some t -> start = t) /\
            (Time g = None ->
             start = match rev (List.concat (firstn i blocks)) with
                     | [] => 0
                     | f :: _ => startTimeTicks f + durationTicks f
                     end) /\
            (forall d, Duration g = Some d -> duration = d) /\
            (Duration g = None -> nth_error groups (S i) = None ->
             duration = total - start) /\
            (Duration g = None ->
             forall next t,
               nth_error groups (S i) = Some next -> Time next = Some t ->
               duration = t - start) /\
            block =
              map (fun k =>
                     mkResolvedFragment (start + Z.of_nat k * duration)
                       duration
                       (List.length (List.concat (firstn i blocks)) + k))
                  (seq 0 (match Repeat g with
                          | Some r => Z.to_nat r
                          | None => 1%nat
                          end))) /\
  (forall tolerant total,
      resolve tolerant total
        [mkStreamFragment None (Some 500) (Some 0) (Some 3) []] =
      inr [mkResolvedFragment 0 500 0;
           mkResolvedFragment 500 500 1;
           mkResolvedFragment 1000 500 2]).
Proof.
  split.
  - intros tolerant total groups fragments H. unfold resolve in H.
    destruct (resolve_blocks tolerant total 0 groups) as [|pairs] eqn:Hb;
      [discriminate|].
    injection H as <-.
    destruct (resolve_blocks_entries _ _ _ _ 0%nat _ Hb)
      as [blocks [Hc [Hl Hg]]].
    exists blocks. split; [exact Hc|]. split; [exact Hl|]. exact Hg.
  - intros tolerant total. unfold resolve. cbn.
    now destruct tolerant.
Qed.

End Timeline.

(** ** The statements at concrete tracks *)

(** The example of the specification for the AVC path: profile 0x42,
    compatibility 0x00, level 0x1F, one sequence and one picture
    parameter set. *)
Example avc_private_data_record :
  @CreateAvcCMp4Box sample_codec
    (sample_processor Avc1FourCC avc_private_data false VideoStream) =
  Ok (new_box
        (AVCConfigurationBox
           (mkAVCConfig 1 x42 x00 x1f 3
              [mkAVCSPS [x67; x42; x00; x1f; xe9]]
              [mkAVCPPS [x68; xce; x3c; x80]]))).
Proof. reflexivity. Qed.

Example avc_private_data_readable :
  avc_readable (nal_units avc_private_data) /\
  avc_record_of (nal_units avc_private_data) =
  mkAVCConfig 1 x42 x00 x1f 3
    [mkAVCSPS [x67; x42; x00; x1f; xe9]] [mkAVCPPS [x68; xce; x3c; x80]].
Proof.
  split; [|reflexivity]. split.
  - repeat constructor; discriminate.
  - simpl. lia.
Qed.

(** HEVC private data holding a video and a picture parameter set, but no
    sequence parameter set. *)
Example hevc_vps_pps_only :
  @CreateHvcCMp4Box sample_codec
    (sample_processor Hvc1FourCC
       (start_code ++ [x40; x01; x0c] ++ start_code ++ [x44; x01; xc0])
       false VideoStream) =
  Err (Errorf "cannot find hevc sps nalu").
Proof. reflexivity. Qed.

(** The file-type box and the shape of the movie box of a protected
    track. *)
Example init_segment_shape :
  exists ftyp moov,
    @CreateInitMp4Box sample_codec sample_container protected_avc_track =
    Ok (ftyp, moov) /\
    body ftyp =
      FileTypeBox Iso6FourCC 1 [IsomFourCC; Iso6FourCC; MsdhFourCC] /\
    map body (children moov) =
      [MovieHeaderBox 10000000 600000000 65536 256 unity_matrix 2;
       TrackBox; MovieExtendsBox;
       ProtectionSystemSpecificHeaderBox (repeat x00 16) []].
Proof. do 2 eexists. split; [reflexivity|]. split; reflexivity. Qed.

(** C1, as the specification states it, fails: the sample entry of an
    unprotected track with the second HEVC code has that code as its box
    type, not "hvc1". *)
Lemma hev1_entry_keeps_its_code :
  (Codec hev1_track = Hvc1FourCC \/ Codec hev1_track = Hev1FourCC) /\
  Protected hev1_track = false /\
  exists entry,
    @CreateSampleEntryMp4Box sample_codec hev1_track = Ok entry /\
    Header_Type entry = "hev1" /\
    Header_Type entry <> "hvc1".
Proof.
  split; [right; reflexivity|]. split; [reflexivity|].
  eexists. split; [reflexivity|]. split; [reflexivity|].
  simpl. discriminate.
Qed.

Lemma CreateSampleEntryMp4Box_hevc_witness :
  (Codec hev1_track = Hvc1FourCC \/ Codec hev1_track = Hev1FourCC) /\
  exists hvcC,
    @CreateHvcCMp4Box sample_codec hev1_track = Ok hvcC /\
    exists entry,
      @CreateSampleEntryMp4Box sample_codec hev1_track = Ok entry /\
      Header_Type entry =
        (if Protected hev1_track then EncvBoxType else Codec hev1_track) /\
      body entry =
        VisualSampleEntryBox 1 (uint16 (Width hev1_track))
          (uint16 (Height hev1_track)) 72 72 1 "HEVC Coding" 24 /\
      is_hvcC hvcC = true /\
      children entry =
        hvcC :: (if Protected hev1_track
                 then [sinf_tree (Codec hev1_track) (KID hev1_track)]
                 else []).
Proof.
  split; [right; reflexivity|].
  eexists. split; [reflexivity|].
  apply (@CreateSampleEntryMp4Box_hevc sample_codec hev1_track);
    [right; reflexivity|reflexivity].
Defined.

Lemma CreateAvc1Mp4Box_protected_witness :
  Protected protected_avc_track = true /\
  Codec protected_avc_track = Avc1FourCC /\
  exists entry,
    @CreateAvc1Mp4Box sample_codec protected_avc_track = Ok entry /\
    exists avcC,
      @CreateAvcCMp4Box sample_codec protected_avc_track = Ok avcC /\
      is_avcC avcC = true /\
      Header_Type entry = EncvBoxType /\
      children entry =
        [avcC;
         mkBox ZeroFourCC 0 0 ProtectionSchemeInfoBox
           [new_box (OriginalFormatBox Avc1FourCC);
            new_box (SchemeTypeBox CencFourCC 65536);
            mkBox ZeroFourCC 0 0 SchemeInformationBox
              [new_box (TrackEncryptionBox 1 8 (KID protected_avc_track))]]].
Proof.
  split; [reflexivity|]. split; [reflexivity|].
  eexists. split; [reflexivity|].
  apply (@CreateAvc1Mp4Box_protected sample_codec protected_avc_track);
    reflexivity.
Defined.

Lemma CreateSampleEntryMp4Box_unsupported_witness :
  Codec ac3_track <> Avc1FourCC /\
  Codec ac3_track <> Hvc1FourCC /\
  Codec ac3_track <> Hev1FourCC /\
  exists e,
    @CreateSampleEntryMp4Box sample_codec ac3_track = Err e /\
    UnsupportedCodec e /\
    error_message e = "codec AC-3 not supported: codec not supported" /\
    mentions (error_message e) "AC-3".
Proof.
  assert (Codec ac3_track <> Avc1FourCC) as Ha by (simpl; discriminate).
  assert (Codec ac3_track <> Hvc1FourCC) as Hh by (simpl; discriminate).
  assert (Codec ac3_track <> Hev1FourCC) as He by (simpl; discriminate).
  split; [exact Ha|]. split; [exact Hh|]. split; [exact He|].
  exact (@CreateSampleEntryMp4Box_unsupported sample_codec ac3_track Ha Hh He).
Defined.


Lemma empty_unit_panics_witness :
  start_code_then_nothing (CodecPrivateData doubled_start_code_track) /\
  In [] (nal_units (CodecPrivateData doubled_start_code_track)) /\
  @CreateAvcCMp4Box sample_codec doubled_start_code_track = Panic /\
  @CreateHvcCMp4Box sample_codec doubled_start_code_track = Panic.
Proof.
  assert (start_code_then_nothing
            (CodecPrivateData doubled_start_code_track)) as H.
  { left. exists [], [x67]. reflexivity. }
  split; [exact H|].
  exact (@empty_unit_panics sample_codec doubled_start_code_track H).
Defined.

Lemma timescale_truncated_duration_not_witness :
  2 ^ 32 <= Timescale wide_timescale_track /\
  (exists mvhd,
      @CreateMvhdMp4Box sample_codec wide_timescale_track = Ok mvhd /\
      written_timescale mvhd =
        Some (Timescale wide_timescale_track mod 2 ^ 32) /\
      written_duration mvhd =
        Some ((Duration wide_timescale_track *
               Timescale wide_timescale_track) mod 2 ^ 64) /\
      (2 ^ 32 <= Timescale wide_timescale_track ->
       written_timescale mvhd <> Some (Timescale wide_timescale_track))) /\
  exists mdia,
    @CreateMdiaMp4Box sample_codec wide_timescale_track = Ok mdia /\
    exists mdhd rest,
      children mdia = mdhd :: rest /\
      written_timescale mdhd =
        Some (Timescale wide_timescale_track mod 2 ^ 32) /\
      written_duration mdhd =
        Some ((Duration wide_timescale_track *
               Timescale wide_timescale_track) mod 2 ^ 64) /\
      (2 ^ 32 <= Timescale wide_timescale_track ->
       written_timescale mdhd <> Some (Timescale wide_timescale_track)).
Proof.
  split; [vm_compute; discriminate|]. split.
  - exact (proj1 (@timescale_truncated_duration_not sample_codec)
             wide_timescale_track).
  - eexists. split; [reflexivity|].
    apply (proj2 (@timescale_truncated_duration_not sample_codec)
             wide_timescale_track).
    reflexivity.
Defined.

Lemma resolve_repeat_expansion_witness :
  exists fragments,
    Manifest.resolve false 1500
      [Manifest.mkStreamFragment None (Some 500) (Some 0) (Some 3) []] =
    inr fragments /\
    exists blocks : list (list Manifest.ResolvedFragment),
      fragments = List.concat blocks /\
      List.length blocks = 1%nat.
Proof.
  eexists. split; [reflexivity|].
  destruct (proj1 resolve_repeat_expansion false 1500
              [Manifest.mkStreamFragment None (Some 500) (Some 0) (Some 3) []]
              _ eq_refl) as [blocks [H1 [H2 _]]].
  exists blocks. split; [exact H1|exact H2].
Defined.

(** ** How the builders compose *)

Section Composition.

Context {codec : CodecLibrary}.

Lemma CreateStblMp4Box_by_entry (p : MoovProcessor) :
  CreateStblMp4Box p =
  match CreateSampleEntryMp4Box p with
  | Ok entry => Ok (stbl_tree entry)
  | Err e => Err e
  | Panic => Panic
  end.
Proof.
  unfold CreateStblMp4Box, CreateStsdMp4Box.
  destruct (CreateSampleEntryMp4Box p); reflexivity.
Qed.

Lemma CreateMinfMp4Box_by_entry (p : MoovProcessor) :
  CreateMinfMp4Box p =
  match CreateSampleEntryMp4Box p with
  | Ok entry => Ok (minf_tree p entry)
  | Err e => Err e
  | Panic => Panic
  end.
Proof.
  unfold CreateMinfMp4Box, CreateMhdMp4Box, minf_tree, mhd_of.
  rewrite CreateStblMp4Box_by_entry, CreateDinfMp4Box_tree.
  destruct (CreateSampleEntryMp4Box p);
    destruct (String.eqb (Stream_Type p) VideoStream);
    try destruct (String.eqb (Stream_Type p) AudioStream); reflexivity.
Qed.

Lemma CreateTrakMp4Box_by_entry (p : MoovProcessor) :
  CreateTrakMp4Box p =
  match CreateSampleEntryMp4Box p with
  | Ok entry => Ok (trak_tree p entry)
  | Err e => Err e
  | Panic => Panic
  end.
Proof.
  unfold CreateTrakMp4Box, CreateMdiaMp4Box.
  rewrite CreateMinfMp4Box_by_entry.
  destruct (CreateSampleEntryMp4Box p); reflexivity.
Qed.

Lemma CreateMoovMp4Box_by_entry {container : ContainerLibrary}
    (p : MoovProcessor) :
  CreateMoovMp4Box p =
  match CreateSampleEntryMp4Box p with
  | Ok entry => Ok (Mp4BoxUpdate (moov_tree p entry))
  | Err e => Err e
  | Panic => Panic
  end.
Proof.
  unfold CreateMoovMp4Box, moov_tree. rewrite CreateTrakMp4Box_by_entry.
  destruct (CreateSampleEntryMp4Box p); cbn [bind CreateMvhdMp4Box];
    try reflexivity.
  destruct (Protected p); reflexivity.
Qed.

Lemma sample_entry_at_path (p : MoovProcessor) (entry : Box) :
  descend (sample_entry_path p) (trak_tree p entry) = Some entry.
Proof.
  unfold sample_entry_path, trak_tree, mdia_tree, minf_tree, mhd_of.
  destruct (String.eqb (Stream_Type p) VideoStream); [reflexivity|].
  destruct (String.eqb (Stream_Type p) AudioStream); reflexivity.
Qed.

Lemma unsupported_error (p : MoovProcessor) :
  Codec p <> Avc1FourCC -> Codec p <> Hvc1FourCC -> Codec p <> Hev1FourCC ->
  CreateSampleEntryMp4Box p =
  Err (Errorf_wrap ("codec " ++ Codec p ++ " not supported") ErrUnknownCodec).
Proof.
  intros Ha Hh He. unfold CreateSampleEntryMp4Box.
  apply String.eqb_neq in Ha, Hh, He. now rewrite Ha, Hh, He.
Qed.

Lemma avc_dispatch (p : MoovProcessor) :
  Codec p = Avc1FourCC -> CreateSampleEntryMp4Box p = CreateAvc1Mp4Box p.
Proof. unfold CreateSampleEntryMp4Box. now intros ->. Qed.

(** X2.  A codec other than the AVC code and the two HEVC codes makes
    the whole initialization segment fail with the unknown-codec error,
    whatever the codec private data is: the data is never read, so the
    failure is never a panic. *)
Theorem CreateInitMp4Box_unsupported
    {container : ContainerLibrary} (p : MoovProcessor) :
  Codec p <> Avc1FourCC -> Codec p <> Hvc1FourCC -> Codec p <> Hev1FourCC ->
  exists e,
    CreateInitMp4Box p = Err e /\
    CreateMoovMp4Box p = Err e /\
    UnsupportedCodec e /\
    forall cpd,
      CreateInitMp4Box
        (mkMoovProcessor (TrackID p) (Codec p) (Width p) (Height p)
           (Duration p) (Timescale p) (Language p) cpd (Stream_Type p)
           (StreamName p) (Protected p) (KID p) (SystemID p)
           (ProtectionInitData p)) = Err e.
Proof.
  intros Ha Hh He. eexists. split; [|split; [|split]].
  - unfold CreateInitMp4Box. rewrite CreateMoovMp4Box_by_entry.
    rewrite (unsupported_error p Ha Hh He). reflexivity.
  - rewrite CreateMoovMp4Box_by_entry.
    now rewrite (unsupported_error p Ha Hh He).
  - reflexivity.
  - intros cpd. unfold CreateInitMp4Box. rewrite CreateMoovMp4Box_by_entry.
    rewrite unsupported_error by assumption. reflexivity.
Qed.

End Composition.

(** ** The shape of the track and movie boxes *)

Section Structure.

Context {codec : CodecLibrary}.

Lemma CreateTrakMp4Box_entry (p : MoovProcessor) (trak : Box) :
  CreateTrakMp4Box p = Ok trak ->
  exists entry,
    CreateSampleEntryMp4Box p = Ok entry /\ trak = trak_tree p entry.
Proof.
  rewrite CreateTrakMp4Box_by_entry.
  destruct (CreateSampleEntryMp4Box p) as [entry| |]; try discriminate.
  intros H. injection H as <-. now exists entry.
Qed.


Lemma sample_entry_size (p : MoovProcessor) (entry : Box) :
  CreateSampleEntryMp4Box p = Ok entry ->
  visual_size entry = Some (uint16 (Width p), uint16 (Height p)).
Proof.
  unfold CreateSampleEntryMp4Box.
  destruct (String.eqb (Codec p) Avc1FourCC).
  - destruct (CreateAvcCMp4Box p) as [avcC| |] eqn:Ha;
      [|unfold CreateAvc1Mp4Box; rewrite Ha; discriminate..].
    rewrite (CreateAvc1Mp4Box_built p avcC Ha).
    intros H. injection H as <-. reflexivity.
  - destruct (String.eqb (Codec p) Hvc1FourCC ||
              String.eqb (Codec p) Hev1FourCC); [|discriminate].
    destruct (CreateHvcCMp4Box p) as [hvcC| |] eqn:Hh;
      [|unfold CreateHvc1Mp4Box; rewrite Hh; discriminate..].
    rewrite (CreateHvc1Mp4Box_built p hvcC Hh).
    intros H. injection H as <-. reflexivity.
Qed.


(** X5.  The movie header, the track header and the media header are all
    version 1 and carry one and the same duration,
    [Duration * Timescale] modulo 2^64. *)
Theorem headers_share_duration (p : MoovProcessor) (trak : Box) :
  CreateTrakMp4Box p = Ok trak ->
  exists mvhd tkhd mdhd,
    CreateMvhdMp4Box p = Ok mvhd /\
    descend [0%nat] trak = Some tkhd /\
    descend [1%nat; 0%nat] trak = Some mdhd /\
    header_duration mvhd = Some ((Duration p * Timescale p) mod 2 ^ 64) /\
    header_duration tkhd = header_duration mvhd /\
    header_duration mdhd = header_duration mvhd /\
    Version mvhd = 1 /\ Version tkhd = 1 /\ Version mdhd = 1.
Proof.
  intros H. destruct (CreateTrakMp4Box_entry p trak H) as [entry [_ ->]].
  exists (mvhd_box p), (tkhd_box p), (mdia_mdhd p). repeat split.
Qed.

(** X6.  The track-extends box and the track header name the processor's
    track, and the movie header announces the next track identifier in
    32 bits: it is [TrackID + 1], except for the largest identifier,
    after which it wraps to 0. *)
Theorem track_identifiers (p : MoovProcessor) :
  0 <= TrackID p < 2 ^ 32 ->
  exists mvhd mvex trex,
    CreateMvhdMp4Box p = Ok mvhd /\
    CreateMvexMp4Box p = Ok mvex /\
    children mvex = [trex] /\
    track_id_of trex = Some (TrackID p) /\
    next_track_id mvhd =
      Some (if TrackID p =? 2 ^ 32 - 1 then 0 else TrackID p + 1) /\
    forall trak,
      CreateTrakMp4Box p = Ok trak ->
      exists tkhd,
        descend [0%nat] trak = Some tkhd /\
        track_id_of tkhd = Some (TrackID p).
Proof.
  intros Hr.
  exists (mvhd_box p), (mvex_tree p), (new_box (TrackExtendsBox (TrackID p) 1)).
  repeat split.
  - unfold next_track_id, mvhd_box, body, uint32. f_equal.
    destruct (Z.eqb_spec (TrackID p) (2 ^ 32 - 1)) as [->|Hne].
    + reflexivity.
    + apply Z.mod_small. lia.
  - intros trak H.
    destruct (CreateTrakMp4Box_entry p trak H) as [entry [_ ->]].
    exists (tkhd_box p). split; reflexivity.
Qed.

(** X7.  The track header carries the processor's width and height as
    they are, the visual sample entry carries them truncated to 16 bits:
    the two agree when both dimensions are below 65536 and differ as soon
    as the width is 65536 or more. *)
Theorem sample_entry_size_truncated (p : MoovProcessor) (trak : Box) :
  CreateTrakMp4Box p = Ok trak ->
  exists tkhd entry,
    descend [0%nat] trak = Some tkhd /\
    descend (sample_entry_path p) trak = Some entry /\
    visual_size tkhd = Some (Width p, Height p) /\
    visual_size entry = Some (Width p mod 2 ^ 16, Height p mod 2 ^ 16) /\
    (0 <= Width p < 2 ^ 16 -> 0 <= Height p < 2 ^ 16 ->
     visual_size entry = visual_size tkhd) /\
    (2 ^ 16 <= Width p -> visual_size entry <> visual_size tkhd).
Proof.
  intros H. destruct (CreateTrakMp4Box_entry p trak H) as [entry [He ->]].
  exists (tkhd_box p), entry.
  split; [reflexivity|]. split; [apply sample_entry_at_path|].
  split; [reflexivity|].
  pose proof (sample_entry_size p entry He) as Hs. unfold uint16 in Hs.
  split; [exact Hs|]. rewrite Hs. split.
  - intros Hw Hh. cbn. now rewrite !Z.mod_small by assumption.
  - intros Hw E. cbn in E. injection E as Ew _.
    pose proof (Z.mod_pos_bound (Width p) (2 ^ 16) ltac:(lia)) as Hb.
    change (2 ^ 16) with 65536 in Hb, Hw. lia.
Qed.

(** X8.  The handler type and the media-header variant are chosen by the
    same stream type and always agree: the handler is "vide" exactly when
    the media-information box has a video media header, "soun" exactly
    when it has a sound media header, and "meta" exactly when it has
    neither. *)
Theorem handler_matches_media_header (p : MoovProcessor) (mdia : Box) :
  CreateMdiaMp4Box p = Ok mdia ->
  exists mdhd hdlr minf,
    children mdia = [mdhd; hdlr; minf] /\
    (handler_type hdlr = Some VideFourCC <->
     existsb is_vmhd (children minf) = true) /\
    (handler_type hdlr = Some SounFourCC <->
     existsb is_smhd (children minf) = true) /\
    (handler_type hdlr = Some MetaFourCC <->
     existsb is_vmhd (children minf) = false /\
     existsb is_smhd (children minf) = false).
Proof.
  unfold CreateMdiaMp4Box. rewrite CreateMinfMp4Box_by_entry.
  destruct (CreateSampleEntryMp4Box p) as [entry| |]; try discriminate.
  cbn [bind Mp4BoxReplaceChildren new_box]. intros H. injection H as <-.
  exists (mdia_mdhd p), (mdia_hdlr p), (minf_tree p entry).
  split; [reflexivity|].
  unfold mdia_hdlr, minf_tree, mhd_of.
  destruct (String.eqb (Stream_Type p) VideoStream).
  - cbn. repeat split; intros; try discriminate; try reflexivity.
    destruct H; discriminate.
  - destruct (String.eqb (Stream_Type p) AudioStream); cbn;
      repeat split; intros; try discriminate; try reflexivity.
    destruct H; discriminate.
Qed.

(** X9.  The movie box handed to the container library has the movie
    header, the track box and the movie-extends box as its first three
    children; a protected track has exactly one more, the protection
    header with the processor's system identifier and initialization
    data unchanged, and an unprotected track has none. *)
Theorem CreateMoovMp4Box_children
    {container : ContainerLibrary} (p : MoovProcessor) (moov : Box) :
  CreateMoovMp4Box p = Ok moov ->
  exists tree,
    moov = Mp4BoxUpdate tree /\
    body tree = MovieBox /\
    map body (firstn 3 (children tree)) =
      [body (mvhd_box p); TrackBox; MovieExtendsBox] /\
    skipn 3 (children tree) =
      if Protected p
      then [new_box (ProtectionSystemSpecificHeaderBox (SystemID p)
                       (ProtectionInitData p))]
      else [].
Proof.
  rewrite CreateMoovMp4Box_by_entry.
  destruct (CreateSampleEntryMp4Box p) as [entry| |]; try discriminate.
  intros H. injection H as <-. exists (moov_tree p entry).
  repeat split.
Qed.

End Structure.

(** ** What the segments of a split contain *)

Section SegmentFacts.

Variable sep : bytes.
Hypothesis sep_nonempty : sep <> [].

Lemma HasPrefix_true (s : bytes) :
  Bytes.HasPrefix s sep = true -> exists r, s = sep ++ r.
Proof.
  clear sep_nonempty. revert s.
  induction sep as [|p sep' IH]; intros s H.
  - now exists s.
  - destruct s as [|b s]; simpl in H; [discriminate|].
    destruct (Byte.eqb b p) eqn:E; [|discriminate].
    apply Byte.byte_dec_bl in E. subst b.
    destruct (IH s H) as [r ->]. now exists r.
Qed.

Lemma HasPrefix_firstn (s : bytes) (n : nat) :
  Bytes.HasPrefix (firstn n s) sep = true -> Bytes.HasPrefix s sep = true.
Proof.
  intros H. apply HasPrefix_true in H as [r Hr].
  rewrite <- (firstn_skipn n s), Hr, <- app_assoc.
  apply HasPrefix_app.
Qed.

(** No instance of the separator starts before the one [Index] finds. *)
Lemma Index_firstn (s : bytes) :
  forall m, Bytes.Index s sep = Some m ->
            Bytes.Index (firstn m s) sep = None.
Proof.
  induction s as [|b s IH]; intros m H.
  - now rewrite (Index_nil sep sep_nonempty) in H.
  - rewrite Index_cons in H.
    destruct (Bytes.HasPrefix (b :: s) sep) eqn:Hp.
    + injection H as <-. apply (Index_nil sep sep_nonempty).
    + destruct (Bytes.Index s sep) as [j|] eqn:Hj; [|discriminate].
      injection H as <-. cbn [firstn]. rewrite Index_cons.
      destruct (Bytes.HasPrefix (b :: firstn j s) sep) eqn:Hq.
      * apply (HasPrefix_firstn (b :: s) (S j)) in Hq. congruence.
      * now rewrite (IH j eq_refl).
Qed.

Lemma Split_segments_rec (n : nat) :
  forall s, (List.length s <= n)%nat ->
            Forall (fun seg => Bytes.Index seg sep = None)
                   (Bytes.Split s sep).
Proof.
  induction n as [|n IH]; intros s Hn;
    rewrite (Split_unfold sep sep_nonempty);
    destruct (Bytes.Index s sep) as [m|] eqn:Hi.
  - apply (Index_bound sep sep_nonempty) in Hi.
    pose proof (sep_length_pos sep sep_nonempty). lia.
  - now repeat constructor.
  - constructor; [now apply Index_firstn|].
    apply IH. pose proof (skipn_found_length sep sep_nonempty s m Hi). lia.
  - now repeat constructor.
Qed.

(** No segment of a split contains the separator. *)
Lemma Split_segments (s : bytes) :
  Forall (fun seg => Bytes.Index seg sep = None) (Bytes.Split s sep).
Proof. apply (Split_segments_rec (List.length s)). lia. Qed.

End SegmentFacts.

(** ** The exact behaviour of the two extraction paths *)

Section ExtractionExtras.

Context {codec : CodecLibrary}.

Lemma units_empty_or_not (units : list bytes) :
  Forall (fun nalu => nalu <> []) units \/ In [] units.
Proof.
  induction units as [|u units [IH|IH]].
  - left. constructor.
  - destruct u as [|b u]; [right; now left|].
    left. constructor; [discriminate|exact IH].
  - right. now right.
Qed.

Lemma nal_units_no_start_code (cpd : bytes) :
  Forall (fun nalu => Bytes.Index nalu start_code = None) (nal_units cpd).
Proof.
  unfold nal_units.
  pose proof (Split_segments start_code start_code_nonempty cpd) as H.
  destruct (Bytes.Split cpd start_code); [constructor|].
  now inversion H.
Qed.

(** X10.  [CreateAvcCMp4Box] returns a box exactly when every unit after
    the first start code is non-empty and the first sequence parameter
    set, if there is one, has at least four bytes; on every other input
    it panics.  The box then holds the record of those units. *)
Theorem CreateAvcCMp4Box_exactly (p : MoovProcessor) :
  (avc_readable (nal_units (CodecPrivateData p)) ->
   CreateAvcCMp4Box p =
   Ok (new_box (AVCConfigurationBox
                  (avc_record_of (nal_units (CodecPrivateData p)))))) /\
  (~ avc_readable (nal_units (CodecPrivateData p)) ->
   CreateAvcCMp4Box p = Panic).
Proof.
  split; [apply CreateAvcCMp4Box_readable|].
  intros Hn. rewrite CreateAvcCMp4Box_unfold.
  destruct (units_empty_or_not (nal_units (CodecPrivateData p)))
    as [Hne|Hin].
  - rewrite (avc_collect_readable _ Hne). cbn [bind app].
    destruct (filter avc_is_sps (nal_units (CodecPrivateData p)))
      as [|sps0 rest] eqn:Hf.
    + exfalso. apply Hn. split; [exact Hne|]. now rewrite Hf.
    + cbn [map bind sps_NALUnit].
      assert (List.length sps0 < 4)%nat as Hl.
      { destruct (Nat.lt_ge_cases (List.length sps0) 4) as [Hl|Hl];
          [exact Hl|].
        exfalso. apply Hn. split; [exact Hne|]. now rewrite Hf. }
      unfold index_byte.
      destruct (nth_error sps0 1); cbn [bind]; [|reflexivity].
      destruct (nth_error sps0 2); cbn [bind]; [|reflexivity].
      destruct (nth_error sps0 3) eqn:E3; cbn [bind]; [|reflexivity].
      assert (nth_error sps0 3 <> None) as E by congruence.
      apply nth_error_Some in E. lia.
  - now rewrite (avc_collect_empty_unit _ Hin).
Qed.

(** X11.  When every unit after the first start code is non-empty,
    [CreateHvcCMp4Box] hands the codec library the video, sequence and
    picture parameter sets in the order met, with the three reporting
    flags set, and returns the library's record in a configuration box or
    the library's failure unchanged; without a sequence parameter set the
    library is not called and the missing-set error is returned. *)
Theorem CreateHvcCMp4Box_readable (p : MoovProcessor) :
  Forall (fun nalu => nalu <> []) (nal_units (CodecPrivateData p)) ->
  CreateHvcCMp4Box p =
  match filter hevc_is_sps (nal_units (CodecPrivateData p)) with
  | [] => Err (Errorf "cannot find hevc sps nalu")
  | sps =>
      match CreateHEVCDecoderConfigurationRecord
              (filter hevc_is_vps (nal_units (CodecPrivateData p)))
              sps
              (filter hevc_is_pps (nal_units (CodecPrivateData p)))
              true true true
      with
      | Ok conf => Ok (new_box (HEVCConfigurationBox conf))
      | Err e => Err e
      | Panic => Panic
      end
  end.
Proof.
  intros Hne. rewrite CreateHvcCMp4Box_unfold.
  rewrite (hevc_collect_readable _ Hne). cbn [bind app].
  destruct (filter hevc_is_sps (nal_units (CodecPrivateData p)));
    reflexivity.
Qed.

(** X12.  Every parameter set of a configuration box
    [CreateAvcCMp4Box] returns is one of the units of the codec private
    data, is not empty and contains no start code; the sequence parameter
    sets have unit type 7 and the picture parameter sets unit type 8. *)
Theorem CreateAvcCMp4Box_parameter_sets (p : MoovProcessor) (avcC : Box) :
  CreateAvcCMp4Box p = Ok avcC ->
  Forall (fun ps =>
            In ps (nal_units (CodecPrivateData p)) /\
            ps <> [] /\
            Bytes.Index ps start_code = None)
         (avcC_parameter_sets avcC) /\
  exists conf,
    body avcC = AVCConfigurationBox conf /\
    Forall (fun s => avc_GetNaluType (first_byte (sps_NALUnit s)) = 7)
           (SequenceParameterSets conf) /\
    Forall (fun s => avc_GetNaluType (first_byte (pps_NALUnit s)) = 8)
           (PictureParameterSets conf).
Proof.
  intros H.
  destruct (units_empty_or_not (nal_units (CodecPrivateData p)))
    as [Hne|Hin].
  2:{ rewrite CreateAvcCMp4Box_unfold, (avc_collect_empty_unit _ Hin) in H.
      discriminate. }
  pose proof (nal_units_no_start_code (CodecPrivateData p)) as Hfree.
  rewrite CreateAvcCMp4Box_unfold, (avc_collect_readable _ Hne) in H.
  cbn [bind app] in H.
  destruct (match map mkAVCSPS _ with [] => _ | _ => _ end)
    as [[[a b] c]| |]; cbn [bind] in H; try discriminate.
  injection H as <-.
  rewrite Forall_forall in Hne, Hfree. split.
  - unfold avcC_parameter_sets. cbn [body new_box].
    cbn [SequenceParameterSets PictureParameterSets].
    rewrite !map_map. cbn [sps_NALUnit pps_NALUnit]. rewrite !map_id.
    apply Forall_forall. intros ps Hps.
    apply in_app_or in Hps.
    assert (In ps (nal_units (CodecPrivateData p))) as Hin.
    { destruct Hps as [Hps|Hps]; apply filter_In in Hps; tauto. }
    auto.
  - eexists. split; [reflexivity|].
    cbn [SequenceParameterSets PictureParameterSets]. split.
    + apply Forall_forall. intros s Hs. apply in_map_iff in Hs.
      destruct Hs as [u [<- Hu]]. apply filter_In in Hu as [_ Hu].
      cbn [sps_NALUnit]. unfold avc_is_sps in Hu.
      now apply Z.eqb_eq in Hu.
    + apply Forall_forall. intros s Hs. apply in_map_iff in Hs.
      destruct Hs as [u [<- Hu]]. apply filter_In in Hu as [_ Hu].
      cbn [pps_NALUnit]. unfold avc_is_pps in Hu.
      apply andb_true_iff in Hu as [_ Hu]. now apply Z.eqb_eq in Hu.
Qed.

(** X13.  For the AVC codec and codec data whose configuration box can
    be built, the sample entry has box type "avc1" when the track is not
    protected and "encv" when it is, compressor name "AVC Coding", and
    as children the configuration box, followed for a protected track by
    the protection-scheme subtree. *)
Theorem CreateSampleEntryMp4Box_avc (p : MoovProcessor) (avcC : Box) :
  Codec p = Avc1FourCC ->
  CreateAvcCMp4Box p = Ok avcC ->
  exists entry,
    CreateSampleEntryMp4Box p = Ok entry /\
    Header_Type entry = (if Protected p then EncvBoxType else Avc1FourCC) /\
    compressor_name entry = Some "AVC Coding" /\
    children entry =
      avcC :: (if Protected p then [sinf_tree Avc1FourCC (KID p)] else []).
Proof.
  intros Hc Ha. rewrite (avc_dispatch p Hc).
  rewrite (CreateAvc1Mp4Box_built p avcC Ha), Hc.
  eexists. split; [reflexivity|]. repeat split.
Qed.

End ExtractionExtras.

(** ** Replacing a token by digits *)

Section Replacement.

(** [mark] tells the bytes of the replacement from those of the tokens:
    it holds of every byte of the former and of none of the latter. *)
Variable mark : byte -> bool.

Lemma occurs_after_marked (new y t : bytes) :
  Forall (fun b => mark b = true) new ->
  Forall (fun b => mark b = false) t ->
  forall pre post,
    new ++ y = pre ++ t ++ post -> Request.occurs t y.
Proof.
  intros Hnew Ht. induction Hnew as [|n new Hn _ IH]; intros pre post H.
  - now exists pre, post.
  - destruct pre as [|a pre].
    + destruct t as [|c t]; [now exists [], y|].
      injection H as -> _. inversion Ht; congruence.
    + injection H as _ H. now apply (IH pre post).
Qed.

(** An instance of a token in [x ++ new ++ y] lies in [x] or in [y]. *)
Lemma occurs_around_marked (x new y t : bytes) :
  new <> [] ->
  Forall (fun b => mark b = true) new ->
  Forall (fun b => mark b = false) t ->
  Request.occurs t (x ++ new ++ y) ->
  Request.occurs t x \/ Request.occurs t y.
Proof.
  intros Hne Hnew Ht [pre [post H]]. revert pre H.
  induction x as [|b x IH]; intros pre H.
  - right. now apply (occurs_after_marked new y t Hnew Ht pre post).
  - destruct pre as [|a pre].
    + cbn [app] in H. symmetry in H.
      change (b :: x ++ new ++ y) with ((b :: x) ++ new ++ y) in H.
      apply app_eq_app in H as [l [[Ht' Hx]|[Hx Hpost]]].
      * destruct l as [|c l].
        -- left. exists [], []. now rewrite app_nil_r in *.
        -- destruct new as [|n new]; [contradiction|].
           injection Hx as -> _. subst t.
           apply Forall_app in Ht as [_ Ht].
           inversion Ht. inversion Hnew. congruence.
      * left. exists [], l. now rewrite Hx.
    + injection H as _ H. destruct (IH pre H) as [[pre' [post' ->]]|Hy].
      * left. now exists (b :: pre'), post'.
      * now right.
Qed.

Lemma Strings_eqb_eq (a b : bytes) : Strings.eqb a b = true -> a = b.
Proof.
  revert b. induction a as [|x a IH]; intros [|y b] H; simpl in H;
    try discriminate; [reflexivity|].
  apply andb_true_iff in H as [Hx Hab].
  apply Byte.byte_dec_bl in Hx. subst y. now rewrite (IH b Hab).
Qed.

Lemma marked_differs (old new : bytes) :
  new <> [] ->
  Forall (fun b => mark b = true) new ->
  Forall (fun b => mark b = false) old ->
  Strings.eqb old new = false.
Proof.
  intros Hne Hnew Hold.
  destruct (Strings.eqb old new) eqn:E; [|reflexivity].
  apply Strings_eqb_eq in E. subst old.
  destruct new as [|n new]; [contradiction|].
  inversion Hnew. inversion Hold. congruence.
Qed.

Lemma Replace_loop_count (s old new : bytes) :
  (if (Bytes.Count s old =? 0)%nat then s
   else Strings.Replace_loop (Bytes.Count s old) s old new) =
  Strings.Replace_loop (Bytes.Count s old) s old new.
Proof. destruct (Bytes.Count s old); reflexivity. Qed.

(** [ReplaceAll] as a recursion on the first instance of [old]. *)
Lemma ReplaceAll_unfold (s old new : bytes) :
  old <> [] ->
  Strings.eqb old new = false ->
  Strings.ReplaceAll s old new =
  match Bytes.Index s old with
  | None => s
  | Some j =>
      firstn j s ++ new ++
      Strings.ReplaceAll (skipn (j + List.length old) s) old new
  end.
Proof.
  intros Hold Hneq. unfold Strings.ReplaceAll. rewrite Hneq.
  rewrite !Replace_loop_count, (Count_unfold old Hold s).
  destruct (Bytes.Index s old) as [j|] eqn:Hi; [|reflexivity].
  cbn [Strings.Replace_loop]. rewrite Hi.
  now rewrite Replace_loop_count.
Qed.

Lemma Index_None_occurs (t : bytes) :
  forall s, Bytes.Index s t = None -> ~ Request.occurs t s.
Proof.
  induction s as [|b s IH]; intros H [pre [post E]].
  - destruct pre; [|discriminate]. destruct t; [|discriminate].
    discriminate.
  - destruct pre as [|a pre].
    + cbn [app] in E. rewrite E in H.
      destruct (t ++ post) as [|c r] eqn:Et; [discriminate|].
      rewrite Index_cons, <- Et, HasPrefix_app in H. discriminate.
    + injection E as _ E. rewrite Index_cons in H.
      destruct (Bytes.HasPrefix (b :: s) t); [discriminate|].
      destruct (Bytes.Index s t) eqn:Hs; [discriminate|].
      apply (IH eq_refl). now exists pre, post.
Qed.

Lemma occurs_firstn (t s : bytes) (n : nat) :
  Request.occurs t (firstn n s) -> Request.occurs t s.
Proof.
  intros [pre [post E]]. exists pre, (post ++ skipn n s).
  rewrite <- (firstn_skipn n s) at 1. rewrite E.
  now rewrite <- !app_assoc.
Qed.

Lemma occurs_skipn (t s : bytes) (n : nat) :
  Request.occurs t (skipn n s) -> Request.occurs t s.
Proof.
  intros [pre [post E]]. exists (firstn n s ++ pre), post.
  rewrite <- (firstn_skipn n s) at 1. rewrite E.
  now rewrite <- !app_assoc.
Qed.

Section OneReplacement.

Variables old new : bytes.
Hypothesis old_nonempty : old <> [].
Hypothesis new_nonempty : new <> [].
Hypothesis new_marked : Forall (fun b => mark b = true) new.

Lemma ReplaceAll_keeps_absent_rec (t : bytes) (n : nat) :
  Forall (fun b => mark b = false) t ->
  Strings.eqb old new = false ->
  forall s, (List.length s <= n)%nat ->
            ~ Request.occurs t s ->
            ~ Request.occurs t (Strings.ReplaceAll s old new).
Proof.
  intros Ht Hneq. induction n as [|n IH]; intros s Hn Hs;
    rewrite (ReplaceAll_unfold s old new old_nonempty Hneq);
    destruct (Bytes.Index s old) as [j|] eqn:Hi; try exact Hs.
  - apply (Index_bound old old_nonempty) in Hi.
    pose proof (sep_length_pos old old_nonempty). lia.
  - intros Hocc.
    apply (occurs_around_marked _ _ _ _ new_nonempty new_marked Ht) in Hocc.
    destruct Hocc as [Hocc|Hocc].
    + apply Hs. now apply (occurs_firstn t s j).
    + revert Hocc. apply IH.
      * pose proof (skipn_found_length old old_nonempty s j Hi). lia.
      * intros Hocc. apply Hs.
        now apply (occurs_skipn t s (j + List.length old)).
Qed.

(** A token absent from [s] is absent after the replacement. *)
Lemma ReplaceAll_keeps_absent (t s : bytes) :
  Forall (fun b => mark b = false) t ->
  ~ Request.occurs t s ->
  ~ Request.occurs t (Strings.ReplaceAll s old new).
Proof.
  intros Ht Hs. destruct (Strings.eqb old new) eqn:Hneq.
  - unfold Strings.ReplaceAll. now rewrite Hneq.
  - now apply (ReplaceAll_keeps_absent_rec t (List.length s) Ht Hneq).
Qed.

Lemma ReplaceAll_removes_rec (n : nat) :
  Forall (fun b => mark b = false) old ->
  forall s, (List.length s <= n)%nat ->
            ~ Request.occurs old (Strings.ReplaceAll s old new).
Proof.
  intros Hold.
  pose proof (marked_differs old new new_nonempty new_marked Hold) as Hneq.
  induction n as [|n IH]; intros s Hn;
    rewrite (ReplaceAll_unfold s old new old_nonempty Hneq);
    destruct (Bytes.Index s old) as [j|] eqn:Hi;
    try (now apply Index_None_occurs).
  - apply (Index_bound old old_nonempty) in Hi.
    pose proof (sep_length_pos old old_nonempty). lia.
  - intros Hocc.
    apply (occurs_around_marked _ _ _ _ new_nonempty new_marked Hold)
      in Hocc.
    destruct Hocc as [Hocc|Hocc].
    + revert Hocc. apply Index_None_occurs.
      now apply (Index_firstn old old_nonempty).
    + revert Hocc. apply IH.
      pose proof (skipn_found_length old old_nonempty s j Hi). lia.
Qed.

(** No instance of the replaced token is left. *)
Lemma ReplaceAll_removes (s : bytes) :
  Forall (fun b => mark b = false) old ->
  ~ Request.occurs old (Strings.ReplaceAll s old new).
Proof. intros H. now apply (ReplaceAll_removes_rec (List.length s) H). Qed.

End OneReplacement.

End Replacement.

(** ** Decimal rendering *)

Lemma digit_value (d : Z) :
  0 <= d <= 9 ->
  Request.is_digit (Strings.digit d) = true /\
  Z.of_N (Byte.to_N (Strings.digit d)) - 48 = d.
Proof.
  intros H.
  assert (d = 0 \/ d = 1 \/ d = 2 \/ d = 3 \/ d = 4 \/
          d = 5 \/ d = 6 \/ d = 7 \/ d = 8 \/ d = 9) as Hd by lia.
  repeat (destruct Hd as [->|Hd]; [split; reflexivity|]).
  subst d. split; reflexivity.
Qed.

Lemma formatBits_digits (rounds : nat) :
  forall u acc,
    0 <= u ->
    Forall (fun b => Request.is_digit b = true) acc ->
    Forall (fun b => Request.is_digit b = true)
           (Strings.formatBits rounds u acc).
Proof.
  induction rounds as [|r IH]; intros u acc Hu Hacc; [exact Hacc|].
  cbn [Strings.formatBits]. destruct (Z.ltb_spec u 10) as [Hlt|Hge].
  - constructor; [|exact Hacc]. apply digit_value. lia.
  - apply IH.
    + apply Z.div_pos; lia.
    + constructor; [|exact Hacc]. apply digit_value.
      pose proof (Z.mod_pos_bound u 10 ltac:(lia)). lia.
Qed.

Lemma formatBits_nonempty (rounds : nat) :
  forall u acc,
    acc <> [] \/ rounds <> O -> Strings.formatBits rounds u acc <> [].
Proof.
  induction rounds as [|r IH]; intros u acc H.
  - destruct H as [H|H]; [exact H|contradiction].
  - cbn [Strings.formatBits]. destruct (u <? 10); [discriminate|].
    apply IH. left. discriminate.
Qed.

Lemma formatBits_value (rounds : nat) :
  forall u acc,
    0 <= u < 10 ^ Z.of_nat rounds ->
    Request.decimal_value (Strings.formatBits rounds u acc) =
    fold_left (fun a b => 10 * a + (Z.of_N (Byte.to_N b) - 48)) acc u.
Proof.
  unfold Request.decimal_value.
  induction rounds as [|r IH]; intros u acc Hu.
  - cbn [Strings.formatBits]. change (10 ^ Z.of_nat 0) with 1 in Hu.
    now replace u with 0 by lia.
  - cbn [Strings.formatBits]. destruct (Z.ltb_spec u 10) as [Hlt|Hge].
    + cbn [fold_left].
      destruct (digit_value u ltac:(lia)) as [_ ->]. f_equal.
    + rewrite IH.
      * cbn [fold_left].
        pose proof (Z.mod_pos_bound u 10 ltac:(lia)) as Hm.
        destruct (digit_value (u mod 10) ltac:(lia)) as [_ ->].
        f_equal. pose proof (Z.div_mod u 10 ltac:(lia)). lia.
      * rewrite Nat2Z.inj_succ, Z.pow_succ_r in Hu by lia.
        split; [apply Z.div_pos; lia|].
        apply Z.div_lt_upper_bound; lia.
Qed.

(** The decimal rendering of a 64-bit value: digits only, at least one,
    and they denote the value. *)
Lemma FormatUint10_decimal (u : Z) :
  0 <= u < 2 ^ 64 ->
  Forall (fun b => Request.is_digit b = true) (Strings.FormatUint10 u) /\
  Strings.FormatUint10 u <> [] /\
  Request.decimal_value (Strings.FormatUint10 u) = u.
Proof.
  intros Hu. unfold Strings.FormatUint10. split; [|split].
  - apply formatBits_digits; [lia|constructor].
  - apply formatBits_nonempty. right. discriminate.
  - rewrite formatBits_value; [reflexivity|].
    change (10 ^ Z.of_nat 20) with 100000000000000000000.
    change (2 ^ 64) with 18446744073709551616 in Hu. lia.
Qed.

(** ** Fragment request URLs *)

Lemma Index_Some_occurs (t : bytes) :
  forall s j, Bytes.Index s t = Some j -> Request.occurs t s.
Proof.
  induction s as [|b s IH]; intros j H.
  - cbn [Bytes.Index] in H.
    destruct (Bytes.HasPrefix [] t) eqn:Hp; [|discriminate].
    apply HasPrefix_true in Hp as [r Hr]. now exists [], r.
  - rewrite Index_cons in H.
    destruct (Bytes.HasPrefix (b :: s) t) eqn:Hp.
    + apply HasPrefix_true in Hp as [r Hr]. now exists [], r.
    + destruct (Bytes.Index s t) as [i|] eqn:Hi; [|discriminate].
      destruct (IH i eq_refl) as [pre [post ->]].
      now exists (b :: pre), post.
Qed.

Lemma ReplaceAll_absent (s old new : bytes) :
  old <> [] ->
  ~ Request.occurs old s ->
  Strings.ReplaceAll s old new = s.
Proof.
  intros Hold Hs. unfold Strings.ReplaceAll.
  destruct (Strings.eqb old new); [reflexivity|].
  rewrite (Count_unfold old Hold).
  destruct (Bytes.Index s old) as [j|] eqn:Hi; [|reflexivity].
  exfalso. apply Hs. now apply (Index_Some_occurs old s j).
Qed.

Lemma tokens_without_digit :
  Forall (fun tok =>
            tok <> [] /\ Forall (fun b => Request.is_digit b = false) tok)
         Request.tokens.
Proof. repeat constructor; discriminate. Qed.

Lemma substitute_no_token (c bitrateStr starttimeStr : bytes) :
  bitrateStr <> [] ->
  starttimeStr <> [] ->
  Forall (fun b => Request.is_digit b = true) bitrateStr ->
  Forall (fun b => Request.is_digit b = true) starttimeStr ->
  Forall (fun tok =>
            ~ Request.occurs tok
                (Request.substitute c bitrateStr starttimeStr))
         Request.tokens.
Proof.
  intros Hb Hs Hbd Hsd.
  pose proof tokens_without_digit as Ht. unfold Request.tokens in *.
  inversion Ht as [|? ? [N1 D1] Ht1]; subst.
  inversion Ht1 as [|? ? [N2 D2] Ht2]; subst.
  inversion Ht2 as [|? ? [N3 D3] Ht3]; subst.
  inversion Ht3 as [|? ? [N4 D4] _]; subst.
  unfold Request.substitute.
  repeat constructor.
  - apply (ReplaceAll_keeps_absent _ _ _ N4 Hs Hsd _ _ D1).
    apply (ReplaceAll_keeps_absent _ _ _ N3 Hs Hsd _ _ D1).
    apply (ReplaceAll_keeps_absent _ _ _ N2 Hb Hbd _ _ D1).
    now apply (ReplaceAll_removes _ _ _ N1 Hb Hbd).
  - apply (ReplaceAll_keeps_absent _ _ _ N4 Hs Hsd _ _ D2).
    apply (ReplaceAll_keeps_absent _ _ _ N3 Hs Hsd _ _ D2).
    now apply (ReplaceAll_removes _ _ _ N2 Hb Hbd).
  - apply (ReplaceAll_keeps_absent _ _ _ N4 Hs Hsd _ _ D3).
    now apply (ReplaceAll_removes _ _ _ N3 Hs Hsd).
  - now apply (ReplaceAll_removes _ _ _ N4 Hs Hsd).
Qed.

Lemma substitute_without_tokens (c bitrateStr starttimeStr : bytes) :
  Forall (fun tok => ~ Request.occurs tok c) Request.tokens ->
  Request.substitute c bitrateStr starttimeStr = c.
Proof.
  intros H. unfold Request.tokens in H.
  inversion H as [|? ? H1 H']; subst.
  inversion H' as [|? ? H2 H'']; subst.
  inversion H'' as [|? ? H3 H''']; subst.
  inversion H''' as [|? ? H4 _]; subst.
  unfold Request.substitute.
  rewrite (ReplaceAll_absent c Request.bitrate_token) by
    (discriminate || assumption).
  rewrite (ReplaceAll_absent c Request.Bitrate_token) by
    (discriminate || assumption).
  rewrite (ReplaceAll_absent c Request.start_time_token) by
    (discriminate || assumption).
  now rewrite (ReplaceAll_absent c Request.start_time_underscore_token) by
    (discriminate || assumption).
Qed.

Lemma uint64_range (n : Z) : 0 <= uint64 n < 2 ^ 64.
Proof. unfold uint64. apply Z.mod_pos_bound. lia. Qed.

Section RequestClaims.

Context {paths : PathLibrary}.

(** X14.  [ChunkURL] returns the base address with only its path
    changed, to the directory of the base path joined with the pattern
    after substitution; no instance of any of the four tokens is left in
    the substituted pattern, and a pattern without tokens is used as it
    is. *)
Theorem ChunkURL_substitutes_every_token
    (u : Request.URL) (stream : Request.StreamIndex)
    (level : Request.Track) (startTime : Z) (pattern : bytes) :
  Request.Url stream = Some pattern ->
  0 <= startTime < 2 ^ 64 ->
  exists c,
    Request.ChunkURL (Some u) (Some stream) (Some level) startTime =
    Ok (Request.with_path u (path_Join [path_Dir (Request.Path u); c])) /\
    Forall (fun tok => ~ Request.occurs tok c) Request.tokens /\
    (Forall (fun tok => ~ Request.occurs tok pattern) Request.tokens ->
     c = pattern).
Proof.
  intros Hurl Ht.
  destruct (FormatUint10_decimal startTime Ht) as [Hsd [Hs _]].
  destruct (FormatUint10_decimal (uint64 (Request.Bitrate level))
              (uint64_range _)) as [Hbd [Hb _]].
  eexists. split; [|split].
  - unfold Request.ChunkURL. rewrite Hurl. reflexivity.
  - now apply substitute_no_token.
  - apply substitute_without_tokens.
Qed.

(** X15.  [ChunkURL] returns an address exactly when the base address,
    the stream, the stream's URL pattern and the track are all present;
    when one of them is nil it panics. *)
Theorem ChunkURL_nil
    (baseURL : option Request.URL) (stream : option Request.StreamIndex)
    (level : option Request.Track) (startTime : Z) :
  ((exists r, Request.ChunkURL baseURL stream level startTime = Ok r) <->
   baseURL <> None /\ level <> None /\
   exists s pattern, stream = Some s /\ Request.Url s = Some pattern) /\
  (baseURL = None \/ stream = None \/ level = None \/
   (exists s, stream = Some s /\ Request.Url s = None) ->
   Request.ChunkURL baseURL stream level startTime = Panic).
Proof.
  unfold Request.ChunkURL. split; [split|].
  - intros [r H].
    destruct baseURL as [u|]; [|discriminate].
    destruct stream as [s|]; [|discriminate].
    destruct (Request.Url s) as [c|] eqn:Hc; [|discriminate].
    destruct level as [l|]; [|discriminate].
    repeat split; try discriminate. now exists s, c.
  - intros [Hb [Hl [s [c [-> Hc]]]]].
    destruct baseURL as [u|]; [|contradiction].
    destruct level as [l|]; [|contradiction].
    rewrite Hc. eauto.
  - intros [->|[->|[->|[s [-> Hs]]]]].
    + reflexivity.
    + now destruct baseURL.
    + destruct baseURL; [|reflexivity]. destruct stream as [s|];
        [|reflexivity]. now destruct (Request.Url s).
    + rewrite Hs. now destruct baseURL.
Qed.

End RequestClaims.

(** ** A pattern with one bit-rate and one start-time token *)

Section BraceFacts.

(** A token: it starts with an opening brace. *)
Variable tok : bytes.
Hypothesis tok_brace : hd_error tok = Some x7b.

Lemma tok_nonempty : tok <> [].
Proof. destruct tok; [discriminate|discriminate]. Qed.

Lemma HasPrefix_no_brace (b : byte) (s : bytes) :
  b <> x7b -> Bytes.HasPrefix (b :: s) tok = false.
Proof.
  intros Hb. destruct tok as [|c tok']; [discriminate|].
  injection tok_brace as ->. cbn [Bytes.HasPrefix].
  destruct (Byte.eqb b x7b) eqn:E; [|reflexivity].
  apply Byte.byte_dec_bl in E. contradiction.
Qed.

Lemma Index_skip_free (x y : bytes) :
  Request.brace_free x ->
  Bytes.Index (x ++ y) tok =
  option_map (Nat.add (List.length x)) (Bytes.Index y tok).
Proof.
  induction 1 as [|b x Hb _ IH].
  - cbn [app List.length]. now destruct (Bytes.Index y tok).
  - cbn [app List.length]. rewrite Index_cons.
    rewrite (HasPrefix_no_brace b (x ++ y) Hb), IH.
    now destruct (Bytes.Index y tok).
Qed.

Lemma Index_free (x : bytes) :
  Request.brace_free x -> Bytes.Index x tok = None.
Proof.
  intros H. rewrite <- (app_nil_r x), (Index_skip_free x [] H).
  now rewrite (Index_nil tok tok_nonempty).
Qed.

Lemma Index_other_token (r : bytes) :
  Request.brace_free r ->
  Bytes.HasPrefix (x7b :: r) tok = false ->
  Bytes.Index (x7b :: r) tok = None.
Proof.
  intros Hr Hp. rewrite Index_cons, Hp. now rewrite (Index_free r Hr).
Qed.

Lemma ReplaceAll_none (s new : bytes) :
  Bytes.Index s tok = None -> Strings.ReplaceAll s tok new = s.
Proof.
  intros H. unfold Strings.ReplaceAll.
  destruct (Strings.eqb tok new); [reflexivity|].
  now rewrite (Count_unfold tok tok_nonempty), H.
Qed.

Lemma ReplaceAll_once (x y new : bytes) :
  Strings.eqb tok new = false ->
  Request.brace_free x ->
  Bytes.Index y tok = None ->
  Strings.ReplaceAll (x ++ tok ++ y) tok new = x ++ new ++ y.
Proof.
  intros Hneq Hx Hy.
  rewrite (ReplaceAll_unfold _ _ _ tok_nonempty Hneq).
  rewrite (Index_skip_free x (tok ++ y) Hx).
  rewrite (Index_at_head tok tok_nonempty y). cbn [option_map].
  rewrite Nat.add_0_r, firstn_app, firstn_all, Nat.sub_diag, firstn_O.
  rewrite app_nil_r, skipn_app, skipn_all2 by lia.
  replace (List.length x + List.length tok - List.length x)%nat
    with (List.length tok) by lia.
  rewrite skipn_app, skipn_all, Nat.sub_diag. cbn [app skipn].
  now rewrite (ReplaceAll_none y new Hy).
Qed.

End BraceFacts.

Lemma digits_brace_free (s : bytes) :
  Forall (fun b => Request.is_digit b = true) s -> Request.brace_free s.
Proof.
  induction 1 as [|b s Hb _ IH]; constructor; [|exact IH].
  intros ->. discriminate.
Qed.

Lemma brace_free_app (x y : bytes) :
  Request.brace_free x -> Request.brace_free y -> Request.brace_free (x ++ y).
Proof. intros Hx Hy. apply Forall_app. now split. Qed.

Section PatternClaim.

Context {paths : PathLibrary}.

(** X16.  For a pattern with one "{bitrate}" and, after it, one
    "{start time}" token and no other opening brace, [ChunkURL] puts the
    decimal digits of the track's bit rate and of the start time in
    their places and leaves the rest of the pattern as it is. *)
Theorem ChunkURL_pattern
    (u : Request.URL) (stream : Request.StreamIndex)
    (level : Request.Track) (startTime : Z) (pre mid post : bytes) :
  Request.Url stream =
    Some (pre ++ Request.bitrate_token ++ mid ++
          Request.start_time_token ++ post) ->
  Request.brace_free pre ->
  Request.brace_free mid ->
  Request.brace_free post ->
  0 <= Request.Bitrate level < 2 ^ 32 ->
  0 <= startTime < 2 ^ 64 ->
  exists rate time,
    Request.ChunkURL (Some u) (Some stream) (Some level) startTime =
    Ok (Request.with_path u
          (path_Join [path_Dir (Request.Path u);
                      pre ++ rate ++ mid ++ time ++ post])) /\
    Forall (fun b => Request.is_digit b = true) rate /\
    Forall (fun b => Request.is_digit b = true) time /\
    Request.decimal_value rate = Request.Bitrate level /\
    Request.decimal_value time = startTime.
Proof.
  intros Hurl Hpre Hmid Hpost Hrate Htime.
  assert (uint64 (Request.Bitrate level) = Request.Bitrate level) as Hu.
  { unfold uint64. apply Z.mod_small.
    change (2 ^ 32) with 4294967296 in Hrate.
    change (2 ^ 64) with 18446744073709551616. lia. }
  destruct (FormatUint10_decimal startTime Htime) as [Hsd [Hs Hsv]].
  destruct (FormatUint10_decimal (uint64 (Request.Bitrate level))
              (uint64_range _)) as [Hbd [Hb Hbv]].
  exists (Strings.FormatUint10 (uint64 (Request.Bitrate level))),
    (Strings.FormatUint10 startTime).
  split; [|repeat split; try assumption; now rewrite Hbv].
  unfold Request.ChunkURL. rewrite Hurl. unfold Request.with_path.
  do 3 f_equal. unfold Request.substitute.
  pose proof tokens_without_digit as Ht. unfold Request.tokens in Ht.
  inversion Ht as [|? ? [_ D1] Ht1]; subst.
  inversion Ht1 as [|? ? [_ D2] Ht2]; subst.
  inversion Ht2 as [|? ? [_ D3] Ht3]; subst.
  inversion Ht3 as [|? ? [_ D4] _]; subst.
  set (rate := Strings.FormatUint10 (uint64 (Request.Bitrate level))) in *.
  set (time := Strings.FormatUint10 startTime) in *.
  pose proof (digits_brace_free rate Hbd) as Hrf.
  pose proof (digits_brace_free time Hsd) as Htf.
  assert (Request.brace_free
            (tl Request.start_time_token ++ post)) as Htail.
  { apply brace_free_app; [|exact Hpost].
    repeat constructor; discriminate. }
  rewrite (ReplaceAll_once Request.bitrate_token eq_refl pre
             (mid ++ Request.start_time_token ++ post) rate
             (marked_differs _ _ _ Hb Hbd D1) Hpre).
  2:{ rewrite (Index_skip_free Request.bitrate_token eq_refl mid _ Hmid).
      change (Request.start_time_token ++ post)
        with (x7b :: (tl Request.start_time_token ++ post)).
      now rewrite (Index_other_token Request.bitrate_token eq_refl _
                     Htail eq_refl). }
  rewrite (ReplaceAll_none Request.Bitrate_token eq_refl).
  2:{ rewrite !app_assoc, <- (app_assoc _ Request.start_time_token post).
      rewrite (Index_skip_free Request.Bitrate_token eq_refl).
      - change (Request.start_time_token ++ post)
          with (x7b :: (tl Request.start_time_token ++ post)).
        now rewrite (Index_other_token Request.Bitrate_token eq_refl _
                       Htail eq_refl).
      - repeat apply brace_free_app; assumption. }
  rewrite !app_assoc, <- (app_assoc _ Request.start_time_token post).
  rewrite (ReplaceAll_once Request.start_time_token eq_refl _ post time
             (marked_differs _ _ _ Hs Hsd D3)).
  2:{ repeat apply brace_free_app; assumption. }
  2:{ now apply (Index_free Request.start_time_token eq_refl). }
  rewrite (ReplaceAll_none Request.start_time_underscore_token eq_refl).
  2:{ apply (Index_free Request.start_time_underscore_token eq_refl).
      repeat apply brace_free_app; assumption. }
  now rewrite <- !app_assoc.
Qed.

End PatternClaim.

(** ** The codec private data and its units *)

Lemma Index_Some_split (t : bytes) :
  forall s j,
    Bytes.Index s t = Some j ->
    s = firstn j s ++ t ++ skipn (j + List.length t) s.
Proof.
  induction s as [|b s IH]; intros j H.
  - cbn [Bytes.Index] in H.
    destruct (Bytes.HasPrefix [] t) eqn:Hp; [|discriminate].
    injection H as <-. apply HasPrefix_true in Hp as [r Hr].
    destruct t; [reflexivity|discriminate].
  - rewrite Index_cons in H.
    destruct (Bytes.HasPrefix (b :: s) t) eqn:Hp.
    + injection H as <-. apply HasPrefix_true in Hp as [r Hr].
      rewrite Hr at 1. cbn [firstn app Nat.add]. f_equal.
      now rewrite Hr, skipn_app, skipn_all, Nat.sub_diag.
    + destruct (Bytes.Index s t) as [i|] eqn:Hi; [|discriminate].
      injection H as <-. cbn [firstn app Nat.add skipn]. f_equal.
      now apply IH.
Qed.

Lemma Split_joins_rec (sep : bytes) (n : nat) :
  sep <> [] ->
  forall s, (List.length s <= n)%nat ->
            s = hd [] (Bytes.Split s sep) ++
                List.concat (map (app sep) (tl (Bytes.Split s sep))).
Proof.
  intros Hsep. induction n as [|n IH]; intros s Hn;
    rewrite (Split_unfold sep Hsep);
    destruct (Bytes.Index s sep) as [m|] eqn:Hi;
    try (cbn; now rewrite app_nil_r).
  - apply (Index_bound sep Hsep) in Hi.
    pose proof (sep_length_pos sep Hsep). lia.
  - cbn [hd tl].
    pose proof (skipn_found_length sep Hsep s m Hi) as Hl.
    specialize (IH (skipn (m + List.length sep) s) ltac:(lia)).
    pose proof (Split_not_nil sep Hsep (skipn (m + List.length sep) s))
      as Hnn.
    destruct (Bytes.Split (skipn (m + List.length sep) s) sep)
      as [|seg segs]; [contradiction|].
    cbn [hd tl map List.concat] in *.
    rewrite <- app_assoc, <- IH.
    now apply Index_Some_split.
Qed.

(** X17.  Splitting loses nothing: the codec private data is the segment
    before the first start code followed by every unit with a start code
    in front of it, and that first segment contains no start code. *)
Theorem nal_units_rebuild (cpd : bytes) :
  exists prefix,
    Bytes.Split cpd start_code = prefix :: nal_units cpd /\
    cpd = prefix ++ List.concat (map (app start_code) (nal_units cpd)) /\
    Bytes.Index prefix start_code = None.
Proof.
  pose proof (Split_joins_rec start_code (List.length cpd)
                start_code_nonempty cpd (le_n _)) as H.
  pose proof (Split_segments start_code start_code_nonempty cpd) as Hs.
  unfold nal_units.
  destruct (Bytes.Split cpd start_code) as [|prefix units] eqn:E.
  - now apply (Split_not_nil start_code start_code_nonempty) in E.
  - exists prefix. cbn [hd tl] in *. split; [reflexivity|].
    split; [exact H|]. now inversion Hs.
Qed.

(** ** The further statements at concrete inputs *)

#[local] Existing Instance sample_codec.
#[local] Existing Instance sample_container.
#[local] Existing Instance sample_paths.

Lemma CreateInitMp4Box_unsupported_witness :
  Codec ac3_track <> Avc1FourCC /\
  Codec ac3_track <> Hvc1FourCC /\
  Codec ac3_track <> Hev1FourCC /\
  exists e,
    @CreateInitMp4Box sample_codec sample_container ac3_track = Err e /\
    UnsupportedCodec e.
Proof.
  assert (Codec ac3_track <> Avc1FourCC) as Ha by (simpl; discriminate).
  assert (Codec ac3_track <> Hvc1FourCC) as Hh by (simpl; discriminate).
  assert (Codec ac3_track <> Hev1FourCC) as He by (simpl; discriminate).
  split; [exact Ha|]. split; [exact Hh|]. split; [exact He|].
  destruct (@CreateInitMp4Box_unsupported sample_codec sample_container
              ac3_track Ha Hh He) as [e [H1 [_ [H2 _]]]].
  exists e. split; [exact H1|exact H2].
Defined.


Lemma headers_share_duration_witness :
  exists trak,
    @CreateTrakMp4Box sample_codec wide_timescale_track = Ok trak /\
    exists mvhd tkhd mdhd,
      @CreateMvhdMp4Box sample_codec wide_timescale_track = Ok mvhd /\
      descend [0%nat] trak = Some tkhd /\
      descend [1%nat; 0%nat] trak = Some mdhd /\
      header_duration mvhd =
        Some ((Duration wide_timescale_track *
               Timescale wide_timescale_track) mod 2 ^ 64) /\
      header_duration tkhd = header_duration mvhd /\
      header_duration mdhd = header_duration mvhd /\
      Version mvhd = 1 /\ Version tkhd = 1 /\ Version mdhd = 1.
Proof.
  eexists. split; [reflexivity|].
  apply (@headers_share_duration sample_codec wide_timescale_track).
  reflexivity.
Defined.

Lemma track_identifiers_witness :
  0 <= TrackID avc_track < 2 ^ 32 /\
  exists mvhd,
    @CreateMvhdMp4Box sample_codec avc_track = Ok mvhd /\
    next_track_id mvhd = Some 2.
Proof.
  assert (0 <= TrackID avc_track < 2 ^ 32) as Hr by (vm_compute; split; [discriminate|reflexivity]).
  split; [exact Hr|].
  destruct (@track_identifiers sample_codec avc_track Hr)
    as [mvhd [mvex [trex [H1 [_ [_ [_ [H2 _]]]]]]]].
  exists mvhd. split; [exact H1|exact H2].
Defined.

Lemma sample_entry_size_truncated_witness :
  exists trak,
    @CreateTrakMp4Box sample_codec avc_track = Ok trak /\
    exists tkhd entry,
      descend [0%nat] trak = Some tkhd /\
      descend (sample_entry_path avc_track) trak = Some entry /\
      visual_size tkhd = Some (1920, 1080) /\
      visual_size entry = Some (1920, 1080).
Proof.
  eexists. split; [reflexivity|].
  destruct (@sample_entry_size_truncated sample_codec avc_track _ eq_refl)
    as [tkhd [entry [H1 [H2 [H3 [H4 _]]]]]].
  exists tkhd, entry. repeat split; assumption.
Defined.

Lemma handler_matches_media_header_witness :
  exists mdia,
    @CreateMdiaMp4Box sample_codec text_track = Ok mdia /\
    exists mdhd hdlr minf,
      children mdia = [mdhd; hdlr; minf] /\
      (handler_type hdlr = Some MetaFourCC <->
       existsb is_vmhd (children minf) = false /\
       existsb is_smhd (children minf) = false).
Proof.
  eexists. split; [reflexivity|].
  destruct (@handler_matches_media_header sample_codec text_track _ eq_refl)
    as [mdhd [hdlr [minf [H1 [_ [_ H2]]]]]].
  exists mdhd, hdlr, minf. split; assumption.
Defined.

Lemma CreateMoovMp4Box_children_witness :
  exists moov,
    @CreateMoovMp4Box sample_codec sample_container protected_avc_track =
    Ok moov /\
    exists tree,
      moov = Mp4BoxUpdate tree /\
      skipn 3 (children tree) =
        [new_box (ProtectionSystemSpecificHeaderBox
                    (SystemID protected_avc_track)
                    (ProtectionInitData protected_avc_track))].
Proof.
  eexists. split; [reflexivity|].
  destruct (@CreateMoovMp4Box_children sample_codec sample_container
              protected_avc_track _ eq_refl) as [tree [H1 [_ [_ H2]]]].
  exists tree. split; assumption.
Defined.

Lemma CreateAvcCMp4Box_exactly_witness :
  avc_readable (nal_units (CodecPrivateData avc_track)) /\
  @CreateAvcCMp4Box sample_codec avc_track =
  Ok (new_box (AVCConfigurationBox
                 (avc_record_of (nal_units (CodecPrivateData avc_track))))) /\
  ~ avc_readable (nal_units (CodecPrivateData doubled_start_code_track)) /\
  @CreateAvcCMp4Box sample_codec doubled_start_code_track = Panic.
Proof.
  assert (avc_readable (nal_units (CodecPrivateData avc_track))) as Hr.
  { split; [repeat constructor; discriminate|simpl; lia]. }
  assert (~ avc_readable
            (nal_units (CodecPrivateData doubled_start_code_track))) as Hn.
  { intros [H _]. inversion H as [|? ? Hne _]. now apply Hne. }
  split; [exact Hr|]. split.
  - exact (proj1 (@CreateAvcCMp4Box_exactly sample_codec avc_track) Hr).
  - split; [exact Hn|].
    exact (proj2 (@CreateAvcCMp4Box_exactly sample_codec
                    doubled_start_code_track) Hn).
Defined.

Lemma CreateHvcCMp4Box_readable_witness :
  Forall (fun nalu => nalu <> []) (nal_units (CodecPrivateData hev1_track)) /\
  @CreateHvcCMp4Box sample_codec hev1_track =
  Ok (@new_box sample_codec
        (@HEVCConfigurationBox sample_codec
           (mkSampleHEVCRecord [] [[x42; x01; x01]] [] (true, true, true)))).
Proof.
  assert (Forall (fun nalu => nalu <> [])
            (nal_units (CodecPrivateData hev1_track))) as H.
  { repeat constructor; discriminate. }
  split; [exact H|].
  exact (@CreateHvcCMp4Box_readable sample_codec hev1_track H).
Defined.

Lemma CreateAvcCMp4Box_parameter_sets_witness :
  exists avcC,
    @CreateAvcCMp4Box sample_codec avc_track = Ok avcC /\
    Forall (fun ps =>
              In ps (nal_units (CodecPrivateData avc_track)) /\
              ps <> [] /\
              Bytes.Index ps start_code = None)
           (avcC_parameter_sets avcC).
Proof.
  eexists. split; [reflexivity|].
  exact (proj1 (@CreateAvcCMp4Box_parameter_sets sample_codec avc_track _
                  eq_refl)).
Defined.

Lemma CreateSampleEntryMp4Box_avc_witness :
  Codec avc_track = Avc1FourCC /\
  exists avcC,
    @CreateAvcCMp4Box sample_codec avc_track = Ok avcC /\
    exists entry,
      @CreateSampleEntryMp4Box sample_codec avc_track = Ok entry /\
      Header_Type entry = Avc1FourCC /\
      compressor_name entry = Some "AVC Coding" /\
      children entry = [avcC].
Proof.
  split; [reflexivity|]. eexists. split; [reflexivity|].
  exact (@CreateSampleEntryMp4Box_avc sample_codec avc_track _
           eq_refl eq_refl).
Defined.

Lemma ChunkURL_substitutes_every_token_witness :
  Request.Url (Request.sample_stream (Some Request.sample_pattern)) =
    Some Request.sample_pattern /\
  0 <= 20000000 < 2 ^ 64 /\
  exists c,
    @Request.ChunkURL sample_paths (Some Request.sample_base)
      (Some (Request.sample_stream (Some Request.sample_pattern)))
      (Some (Request.sample_track 1500000)) 20000000 =
    Ok (Request.with_path Request.sample_base
          (@path_Join sample_paths
             [@path_Dir sample_paths (Request.Path Request.sample_base); c]))
    /\
    Forall (fun tok => ~ Request.occurs tok c) Request.tokens.
Proof.
  assert (0 <= 20000000 < 2 ^ 64) as Ht by (vm_compute; split; [discriminate|reflexivity]).
  split; [reflexivity|]. split; [exact Ht|].
  destruct (@ChunkURL_substitutes_every_token sample_paths
              Request.sample_base
              (Request.sample_stream (Some Request.sample_pattern))
              (Request.sample_track 1500000) 20000000
              Request.sample_pattern eq_refl Ht) as [c [H1 [H2 _]]].
  exists c. split; assumption.
Defined.

Lemma ChunkURL_pattern_witness :
  Request.Url (Request.sample_stream (Some Request.sample_pattern)) =
    Some (pattern_pre ++ Request.bitrate_token ++ pattern_mid ++
          Request.start_time_token ++ pattern_post) /\
  Request.brace_free pattern_pre /\
  Request.brace_free pattern_mid /\
  Request.brace_free pattern_post /\
  0 <= Request.Bitrate (Request.sample_track 1500000) < 2 ^ 32 /\
  0 <= 20000000 < 2 ^ 64 /\
  exists rate time,
    @Request.ChunkURL sample_paths (Some Request.sample_base)
      (Some (Request.sample_stream (Some Request.sample_pattern)))
      (Some (Request.sample_track 1500000)) 20000000 =
    Ok (Request.with_path Request.sample_base
          (@path_Join sample_paths
             [@path_Dir sample_paths (Request.Path Request.sample_base);
              pattern_pre ++ rate ++ pattern_mid ++ time ++ pattern_post]))
    /\
    Request.decimal_value rate = 1500000 /\
    Request.decimal_value time = 20000000.
Proof.
  assert (Request.brace_free pattern_pre) as H1
      by (repeat constructor; discriminate).
  assert (Request.brace_free pattern_mid) as H2
      by (repeat constructor; discriminate).
  assert (Request.brace_free pattern_post) as H3
      by (repeat constructor; discriminate).
  assert (0 <= Request.Bitrate (Request.sample_track 1500000) < 2 ^ 32)
    as H4 by (vm_compute; split; [discriminate|reflexivity]).
  assert (0 <= 20000000 < 2 ^ 64) as H5 by (vm_compute; split; [discriminate|reflexivity]).
  split; [reflexivity|]. repeat (split; [assumption|]).
  destruct (@ChunkURL_pattern sample_paths Request.sample_base
              (Request.sample_stream (Some Request.sample_pattern))
              (Request.sample_track 1500000) 20000000
              pattern_pre pattern_mid pattern_post eq_refl H1 H2 H3 H4 H5)
    as [rate [time [E [_ [_ [Vr Vt]]]]]].
  exists rate, time. repeat split; assumption.
Defined.

(** The address built for the sample pattern. *)
Example sample_chunk_path :
  exists r,
    @Request.ChunkURL sample_paths (Some Request.sample_base)
      (Some (Request.sample_stream (Some Request.sample_pattern)))
      (Some (Request.sample_track 1500000)) 20000000 = Ok r /\
    string_of_list_byte (Request.Path r) =
    "/video/QualityLevels(1500000)/Fragments(video=20000000)".
Proof. eexists. split; reflexivity. Qed.
